(** * eUSB2 i2c repeater driver: register sequencing and power-state control

    A shallow embedding of [repeater-i2c-eusb2.c] (NXP PTN3222 / TI eUSB2
    repeater) and the properties of its power sequencer, override-sequence
    player and tuning buffer.

    The driver talks to two kernel services, the regulator framework and a
    regmap over i2c.  Both are modelled as one platform oracle that answers
    every call from the history of the calls made so far; driver code runs in
    a small monad that reads the history, emits the events of its own calls
    and may stop with a memory fault when it indexes an array out of range. *)

From Stdlib Require Import ZArith Lia Bool String Ascii.
From stdpp Require Import base list.

Local Open Scope Z_scope.

(** ** Constants of the driver *)

Definition EUSB2_3P0_VOL_MIN : Z := 3075000.
Definition EUSB2_3P0_VOL_MAX : Z := 3300000.
Definition EUSB2_3P0_HPM_LOAD : Z := 3500.

Definition EUSB2_1P8_VOL_MIN : Z := 1800000.
Definition EUSB2_1P8_VOL_MAX : Z := 1800000.
Definition EUSB2_1P8_HPM_LOAD : Z := 32000.

(** NXP PTN3222 eUSB2 repeater registers *)
Definition RESET_CONTROL : Z := 0x01.
Definition LINK_CONTROL1 : Z := 0x02.
Definition LINK_CONTROL2 : Z := 0x03.
Definition eUSB2_RX_CONTROL : Z := 0x04.
Definition eUSB2_TX_CONTROL : Z := 0x05.
Definition USB2_RX_CONTROL : Z := 0x06.
Definition USB2_TX_CONTROL1 : Z := 0x07.
Definition USB2_TX_CONTROL2 : Z := 0x08.
Definition USB2_HS_TERMINATION : Z := 0x09.
Definition USB2_HS_DISCONNECT_THRESHOLD : Z := 0x0A.
Definition RAP_SIGNATURE : Z := 0x0D.
Definition DEVICE_STATUS : Z := 0x0F.
Definition LINK_STATUS : Z := 0x10.
Definition REVISION_ID : Z := 0x13.
Definition CHIP_ID_0 : Z := 0x14.
Definition CHIP_ID_1 : Z := 0x15.
Definition CHIP_ID_2 : Z := 0x16.

(** TI eUSB2 repeater registers *)
Definition GPIO0_CONFIG : Z := 0x00.
Definition GPIO1_CONFIG : Z := 0x40.
Definition UART_PORT1 : Z := 0x50.
Definition EXTRA_PORT1 : Z := 0x51.
Definition REV_ID : Z := 0xB0.
Definition GLOBAL_CONFIG : Z := 0xB2.
Definition INT_ENABLE_1 : Z := 0xB3.
Definition INT_ENABLE_2 : Z := 0xB4.
Definition BC_CONTROL : Z := 0xB6.
Definition BC_STATUS_1 : Z := 0xB7.
Definition INT_STATUS_1 : Z := 0xA3.
Definition INT_STATUS_2 : Z := 0xA4.

Definition TUNE_BUF_COUNT : Z := 20.
Definition TUNE_BUF_SIZE : Z := 25.
Definition TUNE_MAX_NXP : Z := 17.
Definition TUNE_MAX_TI : Z := 12.

Definition tune_map_nxp : list Z :=
  [ RESET_CONTROL; LINK_CONTROL1; LINK_CONTROL2; eUSB2_RX_CONTROL;
    eUSB2_TX_CONTROL; USB2_RX_CONTROL; USB2_TX_CONTROL1; USB2_TX_CONTROL2;
    USB2_HS_TERMINATION; USB2_HS_DISCONNECT_THRESHOLD; RAP_SIGNATURE;
    DEVICE_STATUS; LINK_STATUS; REVISION_ID; CHIP_ID_0; CHIP_ID_1; CHIP_ID_2 ].

Definition tune_map_ti : list Z :=
  [ GPIO0_CONFIG; GPIO1_CONFIG; UART_PORT1; EXTRA_PORT1; REV_ID;
    GLOBAL_CONFIG; INT_ENABLE_1; INT_ENABLE_2; BC_CONTROL; BC_STATUS_1;
    INT_STATUS_1; INT_STATUS_2 ].

(** errno values used by the driver *)
Definition ENOMEM : Z := 12.
Definition ENODEV : Z := 19.
Definition EINVAL : Z := 22.

(** A [u8] variable keeps the low eight bits of what is assigned to it. *)
Definition u8 (z : Z) : Z := z mod 256.

(** ** Data model *)

Inductive eusb2_repeater_type := TI_REPEATER | NXP_REPEATER.

(** The two supplies of the repeater. *)
Inductive rail := vdd18 | vdd3.

(** [struct eusb2_repeater], with the fields the modelled functions use.
    [chip] stands for [er->chip->repeater_type] and [is_host] for
    [er->ur.is_host]; [tune_buf] is the array [u8 tune_buf[20][2]] as a list
    of (address, value) rows. *)
Record eusb2_repeater := mk_eusb2_repeater {
  chip : eusb2_repeater_type;
  is_host : bool;
  reg_base : Z;
  power_enabled : bool;
  reset_gpio_irq : Z;
  param_override_seq : list Z;
  param_override_seq_cnt : Z;
  param_host_override_seq : list Z;
  param_host_override_seq_cnt : Z;
  tune_buf_cnt : Z;
  tune_buf : list (Z * Z);
  er_tune_init_done : bool;
}.

Definition set_power_enabled (er : eusb2_repeater) (b : bool) : eusb2_repeater :=
  mk_eusb2_repeater (chip er) (is_host er) (reg_base er) b (reset_gpio_irq er)
    (param_override_seq er) (param_override_seq_cnt er)
    (param_host_override_seq er) (param_host_override_seq_cnt er)
    (tune_buf_cnt er) (tune_buf er) (er_tune_init_done er).

Definition set_tune_buf (er : eusb2_repeater) (b : list (Z * Z)) : eusb2_repeater :=
  mk_eusb2_repeater (chip er) (is_host er) (reg_base er) (power_enabled er)
    (reset_gpio_irq er) (param_override_seq er) (param_override_seq_cnt er)
    (param_host_override_seq er) (param_host_override_seq_cnt er)
    (tune_buf_cnt er) b (er_tune_init_done er).

Definition set_tune_buf_cnt (er : eusb2_repeater) (n : Z) : eusb2_repeater :=
  mk_eusb2_repeater (chip er) (is_host er) (reg_base er) (power_enabled er)
    (reset_gpio_irq er) (param_override_seq er) (param_override_seq_cnt er)
    (param_host_override_seq er) (param_host_override_seq_cnt er)
    n (tune_buf er) (er_tune_init_done er).

(** ** The platform: regulator framework and regmap *)

(** The calls the driver makes into the kernel. *)
Inductive call :=
| RegulatorSetLoad (r : rail) (load_uA : Z)
| RegulatorSetVoltage (r : rail) (min_uV max_uV : Z)
| RegulatorEnable (r : rail)
| RegulatorDisable (r : rail)
| RegmapWrite (reg val : Z)
| RegmapRead (reg : Z)
| UsleepRange (min_us max_us : Z).

(** What a call gives back: its [int] return code and, for [regmap_read],
    the value stored through the out pointer. *)
Record reply := mk_reply { rc : Z; data : Z }.

Abbreviation event := (call * reply)%type.
Abbreviation history := (list (call * reply)).

(** The platform answers a call knowing everything that happened before. *)
Definition platform : Type := history -> call -> reply.

(** ** The driver monad *)

Inductive fault :=
| OutOfBounds (index len : Z)
| Uninitialised.

Inductive outcome (A : Type) :=
| Done (a : A)
| Fault (f : fault).
Arguments Done {A} a.
Arguments Fault {A} f.

(** A computation reads the platform and the history at its start, and
    gives its outcome with the events it emitted itself. *)
Definition M (A : Type) : Type := platform -> history -> outcome A * list event.

Definition M_ret {A} (a : A) : M A := fun _ _ => (Done a, []).

Definition M_bind {A B} (k : A -> M B) (m : M A) : M B := fun env h =>
  match m env h with
  | (Done a, e1) => let '(b, e2) := k a env (h ++ e1) in (b, e1 ++ e2)
  | (Fault f, e1) => (Fault f, e1)
  end.

#[export] Instance M_mret : MRet M := @M_ret.
#[export] Instance M_mbind : MBind M := @M_bind.

Definition invoke (c : call) : M reply := fun env h =>
  let r := env h c in (Done r, [(c, r)]).

Definition raise {A} (f : fault) : M A := fun _ _ => (Fault f, []).

(** [a[i]] on a C array of [length a] elements. *)
Definition array_load {A} (a : list A) (i : Z) : M A :=
  if (0 <=? i) && (i <? Z.of_nat (length a)) then
    match a !! Z.to_nat i with
    | Some x => mret x
    | None => raise (OutOfBounds i (Z.of_nat (length a)))
    end
  else raise (OutOfBounds i (Z.of_nat (length a))).

(** [a[i] = x] on a C array. *)
Definition array_store {A} (a : list A) (i : Z) (x : A) : M (list A) :=
  if (0 <=? i) && (i <? Z.of_nat (length a)) then mret (<[Z.to_nat i := x]> a)
  else raise (OutOfBounds i (Z.of_nat (length a))).

(** Use of a local variable that may not have been assigned yet. *)
Definition initialised {A} (v : option A) : M A :=
  match v with
  | Some x => mret x
  | None => raise Uninitialised
  end.

(** Kernel entry points, named as the driver calls them. *)
Definition regulator_set_load (r : rail) (load_uA : Z) : M Z :=
  x ← invoke (RegulatorSetLoad r load_uA); mret (rc x).
Definition regulator_set_voltage (r : rail) (min_uV max_uV : Z) : M Z :=
  x ← invoke (RegulatorSetVoltage r min_uV max_uV); mret (rc x).
Definition regulator_enable (r : rail) : M Z :=
  x ← invoke (RegulatorEnable r); mret (rc x).
Definition regulator_disable (r : rail) : M Z :=
  x ← invoke (RegulatorDisable r); mret (rc x).
Definition regmap_write (reg val : Z) : M Z :=
  x ← invoke (RegmapWrite reg val); mret (rc x).
Definition regmap_read (reg : Z) : M (Z * Z) :=
  x ← invoke (RegmapRead reg); mret (rc x, data x).
Definition usleep_range (min_us max_us : Z) : M unit :=
  _ ← invoke (UsleepRange min_us max_us); mret tt.

(** ** [for] loops *)

(** How the body of a loop ends: it falls through to the next iteration or
    breaks out of the loop, in both cases with the locals it has updated, or
    it returns from the enclosing function. *)
Inductive ctl (S R : Type) :=
| Next (s : S)
| Break (s : S)
| Return (r : R).
Arguments Next {S R} s.
Arguments Break {S R} s.
Arguments Return {S R} r.

(** [for (i = start; i < stop; i += step) body], giving either the value of
    [i] and of the locals when the loop is left, or the value returned from
    inside it. *)
Fixpoint for_fuel {S R} (fuel : nat) (i stop step : Z) (s : S)
    (body : Z -> S -> M (ctl S R)) : M (Z * S + R) :=
  match fuel with
  | O => mret (inl (i, s))
  | S fuel' =>
    if i <? stop then
      c ← body i s;
      match c with
      | Next s' => for_fuel fuel' (i + step) stop step s' body
      | Break s' => mret (inl (i, s'))
      | Return r => mret (inr r)
      end
    else mret (inl (i, s))
  end.

Definition for_ {S R} (start stop step : Z) (s : S)
    (body : Z -> S -> M (ctl S R)) : M (Z * S + R) :=
  for_fuel (Z.to_nat (stop - start)) start stop step s body.

(** ** Override-sequence player *)

(** Built with [CONFIG_USB_NOTIFIER]: the strided decoder. *)
Module Notifier.

(** One tuple of the loop body: the three write attempts. *)
Definition update_seq_body (seq : list Z) (i : Z) (_ : unit) : M (ctl unit unit) :=
  _ ← for_ (R := unit) 0 3 1 tt (fun j _ =>
        reg ← array_load seq (i * 4 + 7);
        val ← array_load seq (i * 4 + 3);
        ret ← regmap_write reg val;
        if ret <? 0 then mret (Next tt) else mret (Break tt));
  mret (Next tt).

Definition eusb2_repeater_update_seq (er : eusb2_repeater) (seq : list Z) (cnt : Z) : M unit :=
  let cnt := u8 (cnt / 4) in
  _ ← for_ 0 cnt 2 tt (update_seq_body seq);
  mret tt.

End Notifier.

(** Built without [CONFIG_USB_NOTIFIER]: masked register access and the
    plain (value, address) decoder. *)
Module Plain.

(** [val] is the content of the caller's [u8] variable before the call,
    [None] while that variable is still uninitialised; the result carries
    its content after the call. *)
Definition eusb2_i2c_read_reg (er : eusb2_repeater) (reg : Z) (val : option Z) : M (Z * option Z) :=
  '(ret, reg_val) ← regmap_read reg;
  if ret <? 0 then mret (ret, val)
  else mret (0, Some (u8 reg_val)).

Definition eusb2_i2c_write_reg (er : eusb2_repeater) (reg mask val : Z) : M Z :=
  '(ret, reg_val) ← eusb2_i2c_read_reg er reg None;
  if negb (ret =? 0) then mret ret
  else
    reg_val ← initialised reg_val;
    let val := u8 (Z.lor val (Z.land reg_val mask)) in
    ret ← regmap_write reg val;
    if ret <? 0 then mret ret else mret 0.

Definition update_seq_body (er : eusb2_repeater) (seq : list Z) (i : Z) (_ : unit) : M (ctl unit unit) :=
  let mask := 0xFF in
  val ← array_load seq i;
  reg ← array_load seq (i + 1);
  _ ← eusb2_i2c_write_reg er reg mask val;
  mret (Next tt).

Definition eusb2_repeater_update_seq (er : eusb2_repeater) (seq : list Z) (cnt : Z) : M unit :=
  _ ← for_ 0 cnt 2 tt (update_seq_body er seq);
  mret tt.

End Plain.

(** The build options the driver is compiled with. *)
Record kconfig := mk_kconfig {
  CONFIG_USB_NOTIFIER : bool;
  CONFIG_USB_PHY_TUNING_QCOM : bool;
}.

Definition eusb2_repeater_update_seq (cfg : kconfig) (er : eusb2_repeater) (seq : list Z) (cnt : Z) : M unit :=
  if CONFIG_USB_NOTIFIER cfg then Notifier.eusb2_repeater_update_seq er seq cnt
  else Plain.eusb2_repeater_update_seq er seq cnt.

(** ** Tuning buffer *)

(** The rows in use, in insertion order. *)
Definition tune_entries (er : eusb2_repeater) : list (Z * Z) :=
  take (Z.to_nat (tune_buf_cnt er)) (tune_buf er).

Definition eusb2_repeater_tune_buf_init (ter : eusb2_repeater) : M eusb2_repeater :=
  r ← for_ (R := unit) 0 TUNE_BUF_COUNT 1 (tune_buf ter) (fun i buf =>
        buf ← array_store buf i (0, 0);
        mret (Next buf));
  match r with
  | inl (_, buf) => mret (set_tune_buf ter buf)
  | inr _ => mret ter
  end.

(** The host test-mode setting that must not be applied in client mode. *)
Definition skip_host_test_mode (ter : eusb2_repeater) (row : Z * Z) : bool :=
  negb (is_host ter) &&
  match chip ter with NXP_REPEATER => true | TI_REPEATER => false end &&
  (row.1 =? 0x2) && (row.2 =? 0x03).

Definition tune_set_body (ter : eusb2_repeater) (i : Z) (_ : unit) : M (ctl unit unit) :=
  _ ← for_ (R := unit) 0 3 1 tt (fun j _ =>
        row ← array_load (tune_buf ter) i;
        if skip_host_test_mode ter row then mret (Break tt)
        else
          ret ← regmap_write row.1 row.2;
          if ret <? 0 then mret (Next tt) else mret (Break tt));
  _ ← usleep_range 1 10;
  _ ← for_ (R := unit) 0 3 1 tt (fun j _ =>
        row ← array_load (tune_buf ter) i;
        '(ret, reg_val) ← regmap_read row.1;
        if ret <? 0 then mret (Next tt) else mret (Break tt));
  _ ← usleep_range 1 2;
  mret (Next tt).

Definition eusb2_repeater_tune_set (ter : eusb2_repeater) : M unit :=
  _ ← for_ 0 (tune_buf_cnt ter) 1 tt (tune_set_body ter);
  mret tt.

(** *** Report: text formatting *)

Local Open Scope string_scope.

Definition hex_digit (d : Z) : ascii :=
  match d with
  | 0 => "0" | 1 => "1" | 2 => "2" | 3 => "3" | 4 => "4" | 5 => "5"
  | 6 => "6" | 7 => "7" | 8 => "8" | 9 => "9" | 10 => "a" | 11 => "b"
  | 12 => "c" | 13 => "d" | 14 => "e" | _ => "f"
  end%char%Z.

(** The hexadecimal digits of an [unsigned int], most significant first,
    without leading zeros. *)
Fixpoint hex_nibbles (n : nat) (x : Z) : string :=
  match n with
  | O => ""
  | S n' =>
    let d := Z.land (Z.shiftr x (4 * Z.of_nat n')) 0xF in
    if ((Z.shiftr x (4 * Z.of_nat n') =? 0)%Z && negb (n' =? 0)%nat)%bool then hex_nibbles n' x
    else String (hex_digit d) (hex_nibbles n' x)
  end.

Definition pad_left (width : nat) (s : string) : string :=
  string_of_list_ascii (repeat " "%char (width - String.length s)) ++ s.

(** [%2x] *)
Definition fmt_2x (x : Z) : string := pad_left 2 (hex_nibbles 8 (x mod 2 ^ 32)).

Definition newline : string := String (ascii_of_nat 10) "".

(** ["\n Address Value - %s\n"] *)
Definition report_header (t : eusb2_repeater_type) : string :=
  newline ++ " Address Value - " ++
  match t with NXP_REPEATER => "NXP" | TI_REPEATER => "TI" end ++ newline.

(** ["%s  0x%2x   0x%2x\n"] *)
Definition report_line (str : string) (reg reg_val : Z) : string :=
  str ++ "  0x" ++ fmt_2x reg ++ "   0x" ++ fmt_2x reg_val ++ newline.

Definition failed_to_read_reg : string := "Failed to read reg" ++ newline.

(** [sprintf(buf, ...)]: the text left in [buf] and the number of
    characters written. *)
Definition sprintf (s : string) : Z * string := (Z.of_nat (String.length s), s).

Local Close Scope string_scope.
(** *** Report and insert-or-update *)

(** One row of the report loop over [table]; [str] is the text so far. *)
Definition tune_show_body (table : list Z) (i : Z) (str : string) : M (ctl string (Z * string)) :=
  reg ← array_load table i;
  '(ret, reg_val) ← regmap_read reg;
  if ret <? 0 then mret (Return (sprintf failed_to_read_reg))
  else mret (Next (report_line str reg reg_val)).

(** [ter] is the driver's global pointer, [None] while it is [NULL]; the
    result is the value returned and the text left in [buf]. *)
Definition eusb2_repeater_tune_show (ter : option eusb2_repeater) : M (Z * string) :=
  match ter with
  | None => mret (- ENODEV, EmptyString)
  | Some ter =>
    let str := report_header (chip ter) in
    r ← match chip ter with
        | NXP_REPEATER => for_ 0 TUNE_MAX_NXP 1 str (tune_show_body tune_map_nxp)
        | TI_REPEATER => for_ 0 TUNE_MAX_TI 1 str (tune_show_body tune_map_ti)
        end;
    match r with
    | inl (_, str) => mret (sprintf (str ++ newline)%string)
    | inr res => mret res
    end
  end.

(** The search loop of the store handler: a row whose address is [reg] is
    rewritten in place and the handler returns from inside the loop. *)
Definition tune_store_body (ter : eusb2_repeater) (reg val size : Z) (i : Z) (_ : unit)
    : M (ctl unit (Z * eusb2_repeater)) :=
  row ← array_load (tune_buf ter) i;
  if row.1 =? reg then
    ret ← regmap_write reg val;
    if ret <? 0 then mret (Return (ret, ter))
    else
      buf ← array_store (tune_buf ter) i (row.1, val);
      let ter := set_tune_buf ter buf in
      _ ← usleep_range 1 2;
      '(ret, reg_val) ← regmap_read reg;
      if ret <? 0 then mret (Return (ret, ter))
      else mret (Return (size, ter))
  else mret (Next tt).

(** [reg] and [val] are the two bytes scanned from the text written to the
    attribute, [size] its length; the result is the value returned and the
    device afterwards. *)
Definition eusb2_repeater_tune_store (ter : option eusb2_repeater) (reg val size : Z)
    : M (Z * option eusb2_repeater) :=
  match ter with
  | None => mret (- ENODEV, None)
  | Some ter =>
    r ← for_ 0 (tune_buf_cnt ter) 1 tt (tune_store_body ter reg val size);
    match r with
    | inr (ret, ter) => mret (ret, Some ter)
    | inl (i, _) =>
      if tune_buf_cnt ter <? TUNE_BUF_COUNT then
        ret ← regmap_write reg val;
        if ret <? 0 then mret (ret, Some ter)
        else
          buf ← array_store (tune_buf ter) i (reg, val);
          let ter := set_tune_buf ter buf in
          _ ← usleep_range 1 2;
          '(ret, reg_val) ← regmap_read reg;
          if ret <? 0 then mret (ret, Some ter)
          else mret (size, Some (set_tune_buf_cnt ter (tune_buf_cnt ter + 1)))
      else mret (size, Some ter)
    end
  end.

(** ** Power sequencer *)

(** The labels of [eusb2_repeater_power], last one first; each block falls
    through to the next label. *)
Definition err_vdd18 (er : eusb2_repeater) (ret : Z) : M (Z * eusb2_repeater) :=
  mret (ret, set_power_enabled er false).

Definition put_vdd18_lpm (er : eusb2_repeater) : M (Z * eusb2_repeater) :=
  ret ← regulator_set_load vdd18 0;
  (* case handling when regulator turning on failed *)
  if negb (power_enabled er) then mret (- EINVAL, er)
  else err_vdd18 er ret.

Definition unset_vdd18 (er : eusb2_repeater) : M (Z * eusb2_repeater) :=
  ret ← regulator_set_voltage vdd18 0 EUSB2_1P8_VOL_MAX;
  put_vdd18_lpm er.

Definition disable_vdd18 (er : eusb2_repeater) : M (Z * eusb2_repeater) :=
  ret ← regulator_disable vdd18;
  unset_vdd18 er.

Definition put_vdd3_lpm (er : eusb2_repeater) : M (Z * eusb2_repeater) :=
  ret ← regulator_set_load vdd3 0;
  disable_vdd18 er.

Definition unset_vdd3 (er : eusb2_repeater) : M (Z * eusb2_repeater) :=
  ret ← regulator_set_voltage vdd3 0 EUSB2_3P0_VOL_MAX;
  put_vdd3_lpm er.

Definition disable_vdd3 (er : eusb2_repeater) : M (Z * eusb2_repeater) :=
  ret ← regulator_disable vdd3;
  unset_vdd3 er.

Definition eusb2_repeater_power (er : eusb2_repeater) (on : bool) : M (Z * eusb2_repeater) :=
  if eqb (power_enabled er) on then mret (0, er)
  else if negb on then disable_vdd3 er
  else
    ret ← regulator_set_load vdd18 EUSB2_1P8_HPM_LOAD;
    if ret <? 0 then err_vdd18 er ret else
    ret ← regulator_set_voltage vdd18 EUSB2_1P8_VOL_MIN EUSB2_1P8_VOL_MAX;
    if negb (ret =? 0) then put_vdd18_lpm er else
    ret ← regulator_enable vdd18;
    if negb (ret =? 0) then unset_vdd18 er else
    ret ← regulator_set_load vdd3 EUSB2_3P0_HPM_LOAD;
    if ret <? 0 then disable_vdd18 er else
    ret ← regulator_set_voltage vdd3 EUSB2_3P0_VOL_MIN EUSB2_3P0_VOL_MAX;
    if negb (ret =? 0) then put_vdd3_lpm er else
    ret ← regulator_enable vdd3;
    if negb (ret =? 0) then unset_vdd3 er else
    mret (ret, set_power_enabled er true).

Definition eusb2_repeater_powerup (er : eusb2_repeater) : M (Z * eusb2_repeater) :=
  eusb2_repeater_power er true.

Definition eusb2_repeater_powerdown (er : eusb2_repeater) : M (Z * eusb2_repeater) :=
  eusb2_repeater_power er false.

(** ** Init *)

(** [ter] aliases [er]: the driver keeps one global device pointer, set at
    the end of probe to the device whose [init] is called here. *)
Definition eusb2_repeater_init (cfg : kconfig) (er : eusb2_repeater) : M Z :=
  _ ← (if CONFIG_USB_NOTIFIER cfg && negb (param_host_override_seq_cnt er =? 0) && is_host er
       then eusb2_repeater_update_seq cfg er (param_host_override_seq er)
              (param_host_override_seq_cnt er)
       else if negb (param_override_seq_cnt er =? 0)
       then eusb2_repeater_update_seq cfg er (param_override_seq er)
              (param_override_seq_cnt er)
       else mret tt);
  _ ← (if CONFIG_USB_PHY_TUNING_QCOM cfg && negb (tune_buf_cnt er =? 0) && er_tune_init_done er
       then eusb2_repeater_tune_set er
       else mret tt);
  mret 0.

(** ** Probe *)

Definition ENODATA : Z := 61.
Definition EOVERFLOW : Z := 75.

(** What the kernel hands to probe: the device-tree node of the i2c client
    and the results of the resource requests probe makes.  A pointer result
    is given by its [PTR_ERR] value, 0 for a valid pointer. *)
Record i2c_client := mk_i2c_client {
  devm_kzalloc_ok : bool;
  of_match_data : eusb2_repeater_type;
  devm_regmap_init_i2c_ok : bool;
  of_reg : Z * Z;
  devm_regulator_get_vdd3 : Z;
  devm_regulator_get_vdd18 : Z;
  devm_gpiod_get_optional_reset : Z;
  of_irq_get_byname : Z;
  devm_request_irq : Z;
  of_param_override_seq : option (list Z);
  of_param_host_override_seq : option (list Z);
  devm_kcalloc_seq_ok : bool;
  devm_kcalloc_host_seq_ok : bool;
  usb_add_repeater_dev : Z;
}.

Definition IS_ERR (ptr_err : Z) : bool := (-4095 <=? ptr_err) && (ptr_err <? 0).

(** Number of one-byte elements of a property. *)
Definition of_property_count_elems_of_size (prop : option (list Z)) : Z :=
  match prop with
  | None => - EINVAL
  | Some [] => - ENODATA
  | Some l => Z.of_nat (length l)
  end.

(** The first [sz] bytes of a property. *)
Definition of_property_read_u8_array (prop : option (list Z)) (sz : Z) : Z * list Z :=
  match prop with
  | None => (- EINVAL, [])
  | Some l =>
    if Z.of_nat (length l) <? sz then (- EOVERFLOW, [])
    else (0, take (Z.to_nat sz) l)
  end.

(** The zeroed structure [devm_kzalloc] gives. *)
Definition zeroed_eusb2_repeater : eusb2_repeater :=
  mk_eusb2_repeater TI_REPEATER false 0 false 0 [] 0 [] 0 0
    (replicate (Z.to_nat TUNE_BUF_COUNT) (0, 0)) false.

Definition with_chip (er : eusb2_repeater) (t : eusb2_repeater_type) : eusb2_repeater :=
  mk_eusb2_repeater t (is_host er) (reg_base er) (power_enabled er)
    (reset_gpio_irq er) (param_override_seq er) (param_override_seq_cnt er)
    (param_host_override_seq er) (param_host_override_seq_cnt er)
    (tune_buf_cnt er) (tune_buf er) (er_tune_init_done er).

Definition with_reg_base (er : eusb2_repeater) (b : Z) : eusb2_repeater :=
  mk_eusb2_repeater (chip er) (is_host er) b (power_enabled er)
    (reset_gpio_irq er) (param_override_seq er) (param_override_seq_cnt er)
    (param_host_override_seq er) (param_host_override_seq_cnt er)
    (tune_buf_cnt er) (tune_buf er) (er_tune_init_done er).

Definition with_reset_gpio_irq (er : eusb2_repeater) (irq : Z) : eusb2_repeater :=
  mk_eusb2_repeater (chip er) (is_host er) (reg_base er) (power_enabled er)
    irq (param_override_seq er) (param_override_seq_cnt er)
    (param_host_override_seq er) (param_host_override_seq_cnt er)
    (tune_buf_cnt er) (tune_buf er) (er_tune_init_done er).

Definition with_param_override_seq (er : eusb2_repeater) (seq : list Z) (cnt : Z) : eusb2_repeater :=
  mk_eusb2_repeater (chip er) (is_host er) (reg_base er) (power_enabled er)
    (reset_gpio_irq er) seq cnt
    (param_host_override_seq er) (param_host_override_seq_cnt er)
    (tune_buf_cnt er) (tune_buf er) (er_tune_init_done er).

Definition with_param_host_override_seq (er : eusb2_repeater) (seq : list Z) (cnt : Z) : eusb2_repeater :=
  mk_eusb2_repeater (chip er) (is_host er) (reg_base er) (power_enabled er)
    (reset_gpio_irq er) (param_override_seq er) (param_override_seq_cnt er)
    seq cnt (tune_buf_cnt er) (tune_buf er) (er_tune_init_done er).

Definition with_er_tune_init_done (er : eusb2_repeater) (b : bool) : eusb2_repeater :=
  mk_eusb2_repeater (chip er) (is_host er) (reg_base er) (power_enabled er)
    (reset_gpio_irq er) (param_override_seq er) (param_override_seq_cnt er)
    (param_host_override_seq er) (param_host_override_seq_cnt er)
    (tune_buf_cnt er) (tune_buf er) b.

(** Reading one override property into the device: the count is checked
    for parity as an [int] and then kept in a [u8] field. *)
Definition probe_override_seq (prop : option (list Z)) (devm_kcalloc_ok : bool)
    : Z + list Z * Z :=
  let num_elem := of_property_count_elems_of_size prop in
  if 0 <? num_elem then
    if negb (Z.rem num_elem 2 =? 0) then inl (- EINVAL)
    else
      let cnt := u8 num_elem in
      if negb devm_kcalloc_ok then inl (- ENOMEM)
      else
        let '(ret, seq) := of_property_read_u8_array prop cnt in
        if negb (ret =? 0) then inl ret
        else inr (seq, cnt)
  else inr ([], 0).

(** The value probe returns and, when it is 0, the device it registered;
    with [CONFIG_USB_PHY_TUNING_QCOM] the global [ter] points to that
    device from then on. *)
Definition eusb2_repeater_i2c_probe (cfg : kconfig) (client : i2c_client)
    : M (Z * option eusb2_repeater) :=
  if negb (devm_kzalloc_ok client) then mret (- ENOMEM, None) else
  let er := with_chip zeroed_eusb2_repeater (of_match_data client) in
  if negb (devm_regmap_init_i2c_ok client) then mret (- EINVAL, None) else
  if (of_reg client).1 <? 0 then mret ((of_reg client).1, None) else
  let er := with_reg_base er (of_reg client).2 in
  if IS_ERR (devm_regulator_get_vdd3 client)
  then mret (devm_regulator_get_vdd3 client, None) else
  if IS_ERR (devm_regulator_get_vdd18 client)
  then mret (devm_regulator_get_vdd18 client, None) else
  if IS_ERR (devm_gpiod_get_optional_reset client)
  then mret (devm_gpiod_get_optional_reset client, None) else
  let er := with_reset_gpio_irq er (of_irq_get_byname client) in
  if reset_gpio_irq er <? 0 then mret (reset_gpio_irq er, None) else
  if devm_request_irq client <? 0 then mret (devm_request_irq client, None) else
  match probe_override_seq (of_param_override_seq client)
          (devm_kcalloc_seq_ok client) with
  | inl ret => mret (ret, None)
  | inr (seq, cnt) =>
    let er := with_param_override_seq er seq cnt in
    match (if CONFIG_USB_NOTIFIER cfg
           then probe_override_seq (of_param_host_override_seq client)
                  (devm_kcalloc_host_seq_ok client)
           else inr ([], 0)) with
    | inl ret => mret (ret, None)
    | inr (hseq, hcnt) =>
      let er := with_param_host_override_seq er hseq hcnt in
      if negb (usb_add_repeater_dev client =? 0)
      then mret (usb_add_repeater_dev client, None) else
      if CONFIG_USB_PHY_TUNING_QCOM cfg then
        let er := set_tune_buf_cnt er 0 in
        let er := with_er_tune_init_done er true in
        er ← eusb2_repeater_tune_buf_init er;
        mret (0, Some er)
      else mret (0, Some er)
    end
  end.

(** ** Describing runs *)

(** The events of issuing the calls [cs] one after the other. *)
Fixpoint play (env : platform) (h : history) (cs : list call) : list event :=
  match cs with
  | [] => []
  | c :: cs => (c, env h c) :: play env (h ++ [(c, env h c)]) cs
  end.

(** The six rail steps of power-up, in order. *)
Definition power_up_steps : list call :=
  [ RegulatorSetLoad vdd18 EUSB2_1P8_HPM_LOAD;
    RegulatorSetVoltage vdd18 EUSB2_1P8_VOL_MIN EUSB2_1P8_VOL_MAX;
    RegulatorEnable vdd18;
    RegulatorSetLoad vdd3 EUSB2_3P0_HPM_LOAD;
    RegulatorSetVoltage vdd3 EUSB2_3P0_VOL_MIN EUSB2_3P0_VOL_MAX;
    RegulatorEnable vdd3 ].

(** The six rail steps of power-down, in order. *)
Definition power_down_steps : list call :=
  [ RegulatorDisable vdd3;
    RegulatorSetVoltage vdd3 0 EUSB2_3P0_VOL_MAX;
    RegulatorSetLoad vdd3 0;
    RegulatorDisable vdd18;
    RegulatorSetVoltage vdd18 0 EUSB2_1P8_VOL_MAX;
    RegulatorSetLoad vdd18 0 ].

(** The rail operation that takes back a power-up step: a load goes back to
    0, a voltage window to [0, max], an enabled rail is disabled. *)
Definition undo (c : call) : call :=
  match c with
  | RegulatorSetLoad r _ => RegulatorSetLoad r 0
  | RegulatorSetVoltage r _ max_uV => RegulatorSetVoltage r 0 max_uV
  | RegulatorEnable r => RegulatorDisable r
  | c => c
  end.

(** Whether the driver takes the result of a power-up step for a failure:
    a negative code from [regulator_set_load], any non-zero code from
    [regulator_set_voltage] and [regulator_enable]. *)
Definition step_failed (e : event) : bool :=
  match e.1 with
  | RegulatorSetLoad _ _ => rc e.2 <? 0
  | _ => negb (rc e.2 =? 0)
  end.

(** Step [k] (counted from 0) is the first power-up step the platform
    fails when the steps are issued in order from history [h]. *)
Definition fails_first (env : platform) (h : history) (k : nat) : Prop :=
  step_failed <$> play env h (take (S k) power_up_steps) = replicate k false ++ [true].

(** A register access is taken for failed when its code is negative. *)
Definition io_failed (e : event) : bool := rc e.2 <? 0.

(** [evs] is one access [c] made at most [n] times, stopping at the first
    success: every attempt but the last failed, and the last one failed
    only if it was the [n]-th. *)
Definition retried (n : nat) (c : call) (evs : list event) : Prop :=
  exists failures last,
    evs = failures ++ [last] /\
    Forall (fun e => e.1 = c /\ io_failed e = true) failures /\
    last.1 = c /\
    (length failures < n)%nat /\
    (S (length failures) < n -> io_failed last = false)%nat.

(** Put an event in front of the events of a run. *)
Definition emit {B} (e : event) (r : outcome B * list event) : outcome B * list event :=
  (r.1, e :: r.2).

(** The (value, address) pairs of a plain override array, in array order. *)
Fixpoint pairs_of (seq : list Z) : list (Z * Z) :=
  match seq with
  | val :: reg :: rest => (val, reg) :: pairs_of rest
  | _ => []
  end.

(** The events of applying each (value, address) pair in turn through the
    masked write with mask 0xFF. *)
Fixpoint play_write_masked (env : platform) (h : history) (er : eusb2_repeater)
    (pairs : list (Z * Z)) : list event :=
  match pairs with
  | [] => []
  | (val, reg) :: pairs =>
    let evs := (Plain.eusb2_i2c_write_reg er reg 0xFF val env h).2 in
    evs ++ play_write_masked env (h ++ evs) er pairs
  end.


(** The report loop, as a function of the addresses still to read and of
    the text so far: [None] when a read failed. *)
Fixpoint read_table (env : platform) (h : history) (regs : list Z) (str : string)
    : option string * list event :=
  match regs with
  | [] => (Some str, [])
  | reg :: regs =>
    let e := (RegmapRead reg, env h (RegmapRead reg)) in
    if io_failed e then (None, [e])
    else
      let '(r, evs) := read_table env (h ++ [e]) regs (report_line str reg (data e.2)) in
      (r, e :: evs)
  end.

(** The table lines that go with the reads [evs], appended to [str]. *)
Definition report_rows (str : string) (evs : list event) : string :=
  foldl (fun s e =>
           match e.1 with
           | RegmapRead reg => report_line s reg (data e.2)
           | _ => s
           end) str evs.

(** The address table of a chip. *)
Definition tune_map (t : eusb2_repeater_type) : list Z :=
  match t with
  | NXP_REPEATER => tune_map_nxp
  | TI_REPEATER => tune_map_ti
  end.

(** The tuning buffer is the 20-row array with between 0 and 20 rows in
    use. *)
Definition tune_buf_ok (er : eusb2_repeater) : Prop :=
  Z.of_nat (length (tune_buf er)) = TUNE_BUF_COUNT /\
  0 <= tune_buf_cnt er <= TUNE_BUF_COUNT.

(** [evs] is what applying one row of the tuning buffer does: the write,
    tried up to three times unless the row is the skipped host test-mode
    setting, a delay, the read-back, tried up to three times, and a delay. *)
Definition applied (ter : eusb2_repeater) (row : Z * Z) (evs : list event) : Prop :=
  exists w r d1 d2,
    evs = w ++ [(UsleepRange 1 10, d1)] ++ r ++ [(UsleepRange 1 2, d2)] /\
    (if skip_host_test_mode ter row then w = []
     else retried 3 (RegmapWrite row.1 row.2) w) /\
    retried 3 (RegmapRead row.1) r.

(** The write-through of one accepted row: the register write, made once;
    when it succeeds, the row stored at index [i], the delay and the
    read-back, made once; [bump] tells whether the row count grows (a new
    row) once the read-back has succeeded. *)
Definition write_through (ter : eusb2_repeater) (reg val size : Z) (i : Z) (bump : bool)
    (env : platform) (h : history) : (Z * eusb2_repeater) * list event :=
  let w := (RegmapWrite reg val, env h (RegmapWrite reg val)) in
  if io_failed w then ((rc w.2, ter), [w])
  else
    let ter' := set_tune_buf ter (<[Z.to_nat i := (reg, val)]> (tune_buf ter)) in
    let d := (UsleepRange 1 2, env (h ++ [w]) (UsleepRange 1 2)) in
    let r := (RegmapRead reg, env ((h ++ [w]) ++ [d]) (RegmapRead reg)) in
    if io_failed r then ((rc r.2, ter'), [w; d; r])
    else ((size, if bump then set_tune_buf_cnt ter' (tune_buf_cnt ter + 1) else ter'),
          [w; d; r]).

(** A sequence of writes to the tuning attribute, each given by the
    scanned address and value and by the length of the text. *)
Fixpoint tune_store_all (ter : option eusb2_repeater) (writes : list (Z * Z * Z))
    : M (option eusb2_repeater) :=
  match writes with
  | [] => mret ter
  | (reg, val, size) :: writes =>
    '(ret, ter) ← eusb2_repeater_tune_store ter reg val size;
    tune_store_all ter writes
  end.

(** ** Concrete platforms and devices *)

Definition ok : reply := mk_reply 0 0.

(** Every call succeeds; registers read as 0. *)
Definition env_ok : platform := fun _ _ => ok.

(** [regulator_enable] of the 3.0 V rail fails with -EIO. *)
Definition env_enable_vdd3_fails : platform := fun _ c =>
  match c with
  | RegulatorEnable vdd3 => mk_reply (-5) 0
  | _ => ok
  end.

(** [regulator_set_voltage] of the 1.8 V rail fails with -ENOMEM. *)
Definition env_set_voltage_vdd18_fails : platform := fun _ c =>
  match c with
  | RegulatorSetVoltage vdd18 _ _ => mk_reply (-12) 0
  | _ => ok
  end.

(** A probed NXP device in client role, powered off. *)
Definition er_off : eusb2_repeater :=
  with_er_tune_init_done (with_chip zeroed_eusb2_repeater NXP_REPEATER) true.

Definition er_on : eusb2_repeater := set_power_enabled er_off true.

(** Registers read as 0x11; every call succeeds. *)
Definition env_reads_0x11 : platform := fun _ _ => mk_reply 0 0x11.

(** Every register read fails with -EIO. *)
Definition env_read_fails : platform := fun _ c =>
  match c with
  | RegmapRead _ => mk_reply (-5) 0
  | _ => ok
  end.

Definition cfg_plain : kconfig := mk_kconfig false true.
Definition cfg_notifier : kconfig := mk_kconfig true true.

(** A client whose resources are all granted, with the two override
    properties as given. *)
Definition client_with (seq host_seq : option (list Z)) : i2c_client :=
  mk_i2c_client true NXP_REPEATER true (0, 0x4f) 0 0 0 17 0 seq host_seq true true 0.



(** Registers read as 0x11, except UART_PORT1 (0x50) whose read fails
    with -ENXIO. *)
Definition env_uart_port1_unreadable : platform := fun _ c =>
  match c with
  | RegmapRead 0x50 => mk_reply (-6) 0
  | _ => mk_reply 0 0x11
  end.

(** The device with the three tuning rows of scenario 5. *)
Definition er_tuned : eusb2_repeater :=
  set_tune_buf_cnt
    (set_tune_buf er_off
       ([(0x02, 0x03); (0x10, 0x01); (0x14, 0x02)] ++ replicate 17 (0, 0))) 3.

(** The same device in host role. *)
Definition er_tuned_host : eusb2_repeater :=
  mk_eusb2_repeater (chip er_tuned) true (reg_base er_tuned) (power_enabled er_tuned)
    (reset_gpio_irq er_tuned) (param_override_seq er_tuned)
    (param_override_seq_cnt er_tuned) (param_host_override_seq er_tuned)
    (param_host_override_seq_cnt er_tuned) (tune_buf_cnt er_tuned)
    (tune_buf er_tuned) (er_tune_init_done er_tuned).

Definition is_regmap_write (e : event) : bool :=
  match e.1 with
  | RegmapWrite _ _ => true
  | _ => false
  end.

(** The first register write fails with -EIO, every later one succeeds. *)
Definition env_first_write_fails : platform := fun h c =>
  match c with
  | RegmapWrite _ _ => if existsb is_regmap_write h then ok else mk_reply (-5) 0
  | _ => ok
  end.

(** Every register write fails with -EIO. *)
Definition env_write_fails : platform := fun _ c =>
  match c with
  | RegmapWrite _ _ => mk_reply (-5) 0
  | _ => ok
  end.

(** A device whose tuning buffer holds the one row (0x04, 0x01). *)
Definition er_one : eusb2_repeater :=
  set_tune_buf_cnt (set_tune_buf er_off ([(0x04, 0x01)] ++ replicate 19 (0, 0))) 1.

(** A device whose tuning buffer is full, with the addresses 1 to 20. *)
Definition er_full : eusb2_repeater :=
  set_tune_buf_cnt
    (set_tune_buf er_off ((fun a => (a, 0x01)) <$> seqZ 1 20)) 20.

(** Twenty-one writes to the tuning attribute, to the addresses 1 to 21. *)
Definition writes21 : list (Z * Z * Z) := (fun a => (a, 0x01, 4)) <$> seqZ 1 21.

(** ** Remove *)

(** [er] is what [i2c_get_clientdata] gives, [None] when it is [NULL]; the
    result is the value returned and the device afterwards. *)
Definition eusb2_repeater_i2c_remove (er : option eusb2_repeater)
    : M (Z * option eusb2_repeater) :=
  match er with
  | None => mret (0, None)
  | Some er =>
    '(_, er) ← eusb2_repeater_power er false;
    mret (0, Some er)
  end.

(** ** More ways to describe runs *)

(** A power-up followed by a power-down, as the lifecycle caller makes
    them. *)
Definition power_cycle (er : eusb2_repeater) : M (Z * eusb2_repeater) :=
  '(_, er) ← eusb2_repeater_powerup er;
  eusb2_repeater_powerdown er.

Definition rail_eqb (a b : rail) : bool :=
  match a, b with
  | vdd18, vdd18 | vdd3, vdd3 => true
  | _, _ => false
  end.

(** The event is an enable of rail [r] that succeeded. *)
Definition enables (r : rail) (e : event) : bool :=
  match e.1 with
  | RegulatorEnable r' => rail_eqb r r' && (rc e.2 =? 0)
  | _ => false
  end.

(** The event is a disable of rail [r]. *)
Definition disables (r : rail) (e : event) : bool :=
  match e.1 with
  | RegulatorDisable r' => rail_eqb r r'
  | _ => false
  end.

(** The event is a disable of rail [r] that succeeded. *)
Definition disabled (r : rail) (e : event) : bool :=
  disables r e && (rc e.2 =? 0).

(** The enable of the 3.0 V rail fails with -EIO, and so does every
    [regulator_disable]. *)
Definition env_enable_vdd3_and_disable_fail : platform := fun _ c =>
  match c with
  | RegulatorEnable vdd3 => mk_reply (-5) 0
  | RegulatorDisable _ => mk_reply (-5) 0
  | _ => ok
  end.

(** How many of the events satisfy [f]. *)
Definition count_events (f : event -> bool) (evs : list event) : nat :=
  length (List.filter f evs).

(** A client that differs from [client] only in having no host override
    property. *)
Definition without_host_override_seq (client : i2c_client) : i2c_client :=
  mk_i2c_client (devm_kzalloc_ok client) (of_match_data client)
    (devm_regmap_init_i2c_ok client) (of_reg client)
    (devm_regulator_get_vdd3 client) (devm_regulator_get_vdd18 client)
    (devm_gpiod_get_optional_reset client) (of_irq_get_byname client)
    (devm_request_irq client) (of_param_override_seq client) None
    (devm_kcalloc_seq_ok client) (devm_kcalloc_host_seq_ok client)
    (usb_add_repeater_dev client).

(** The size of the local text buffer of the report. *)
Definition TUNE_SHOW_STR_SIZE : Z := TUNE_BUF_SIZE * TUNE_BUF_COUNT + 35.

(** Every [regulator_disable] fails with -EIO. *)
Definition env_disable_fails : platform := fun _ c =>
  match c with
  | RegulatorDisable _ => mk_reply (-5) 0
  | _ => ok
  end.

(** [evs] is the write of tuple [t] of a strided override array: the value
    byte at offset 8t + 3 written to the address byte at offset 8t + 7, tried
    up to three times. *)
Definition tuple_written (seq : list Z) (t : Z) (evs : list event) : Prop :=
  exists reg val,
    seq !! Z.to_nat (8 * t + 7) = Some reg /\
    seq !! Z.to_nat (8 * t + 3) = Some val /\
    retried 3 (RegmapWrite reg val) evs.

(** The device with its role set, as the USB framework does through
    [ur.is_host]. *)
Definition with_is_host (er : eusb2_repeater) (b : bool) : eusb2_repeater :=
  mk_eusb2_repeater (chip er) b (reg_base er) (power_enabled er)
    (reset_gpio_irq er) (param_override_seq er) (param_override_seq_cnt er)
    (param_host_override_seq er) (param_host_override_seq_cnt er)
    (tune_buf_cnt er) (tune_buf er) (er_tune_init_done er).

(** The register write of a write to the attribute succeeded. *)
Definition write_succeeded (evs : list event) : bool :=
  match evs with
  | w :: _ => negb (io_failed w)
  | [] => false
  end.

(** The register write and the read-back of a write to the attribute both
    succeeded. *)
Definition read_back_succeeded (evs : list event) : bool :=
  match evs with
  | [w; _; r] => negb (io_failed w) && negb (io_failed r)
  | _ => false
  end.

(** The addresses of the rows in use, in insertion order. *)
Definition tune_addresses (er : eusb2_repeater) : list Z := (tune_entries er).*1.

(** * Properties *)

(** ** The monad and its loops *)

Lemma bind_run {A B} (m : M A) (k : A -> M B) env h :
  (m ≫= k) env h =
  match m env h with
  | (Done a, e1) => let '(b, e2) := k a env (h ++ e1) in (b, e1 ++ e2)
  | (Fault f, e1) => (Fault f, e1)
  end.
Proof. reflexivity. Qed.

Lemma for_fuel_enough {S R} (body : Z -> S -> M (ctl S R)) stop step :
  0 < step ->
  forall fuel1 fuel2 i s env h,
    (Z.to_nat (stop - i) <= fuel1)%nat ->
    (Z.to_nat (stop - i) <= fuel2)%nat ->
    for_fuel fuel1 i stop step s body env h = for_fuel fuel2 i stop step s body env h.
Proof.
  intros Hstep fuel1.
  induction fuel1 as [|fuel1 IH]; intros [|fuel2] i s env h H1 H2; simpl; try reflexivity.
  - destruct (Z.ltb_spec i stop); [lia | reflexivity].
  - destruct (Z.ltb_spec i stop); [lia | reflexivity].
  - destruct (Z.ltb_spec i stop); [| reflexivity].
    rewrite !bind_run. destruct (body i s env h) as [[c|f] e1]; [| reflexivity].
    destruct c as [s'| |]; try reflexivity.
    rewrite (IH fuel2); [reflexivity | lia | lia].
Qed.

(** The loop combinator has fuel for every iteration the C loop makes: it
    unfolds like the loop does. *)
Lemma for_unfold {S R} (body : Z -> S -> M (ctl S R)) i stop step s env h :
  0 < step ->
  for_ i stop step s body env h =
  (if i <? stop then
     c ← body i s;
     match c with
     | Next s' => for_ (i + step) stop step s' body
     | Break s' => mret (inl (i, s'))
     | Return r => mret (inr r)
     end
   else mret (inl (i, s))) env h.
Proof.
  intros Hstep. unfold for_.
  destruct (Z.ltb_spec i stop) as [Hlt|Hge].
  - destruct (Z.to_nat (stop - i)) as [|n] eqn:Hn; [lia |].
    simpl. destruct (Z.ltb_spec i stop); [| lia].
    rewrite !bind_run. destruct (body i s env h) as [[c|f] e1]; [| reflexivity].
    destruct c as [s'| |]; try reflexivity.
    rewrite (for_fuel_enough body stop step Hstep n (Z.to_nat (stop - (i + step))));
      [reflexivity | lia | lia].
  - replace (Z.to_nat (stop - i)) with O by lia. reflexivity.
Qed.

(** ** Running the kernel calls *)

Lemma run_ret {A} (a : A) env h : (mret a : M A) env h = (Done a, []).
Proof. reflexivity. Qed.

Lemma run_raise_bind {A B} f (k : A -> M B) env h :
  (raise f ≫= k) env h = (Fault f, []).
Proof. reflexivity. Qed.

Lemma run_ret_bind {A B} (a : A) (k : A -> M B) env h :
  (mret a ≫= k) env h = k a env h.
Proof.
  rewrite bind_run. simpl. rewrite app_nil_r. destruct (k a env h); reflexivity.
Qed.

Lemma run_regulator_set_load {B} r l (k : Z -> M B) env h :
  let c := RegulatorSetLoad r l in
  (regulator_set_load r l ≫= k) env h =
  emit (c, env h c) (k (rc (env h c)) env (h ++ [(c, env h c)])).
Proof. intros c. rewrite bind_run. simpl. destruct (k _ _ _); reflexivity. Qed.

Lemma run_regulator_set_voltage {B} r l u (k : Z -> M B) env h :
  let c := RegulatorSetVoltage r l u in
  (regulator_set_voltage r l u ≫= k) env h =
  emit (c, env h c) (k (rc (env h c)) env (h ++ [(c, env h c)])).
Proof. intros c. rewrite bind_run. simpl. destruct (k _ _ _); reflexivity. Qed.

Lemma run_regulator_enable {B} r (k : Z -> M B) env h :
  let c := RegulatorEnable r in
  (regulator_enable r ≫= k) env h =
  emit (c, env h c) (k (rc (env h c)) env (h ++ [(c, env h c)])).
Proof. intros c. rewrite bind_run. simpl. destruct (k _ _ _); reflexivity. Qed.

Lemma run_regulator_disable {B} r (k : Z -> M B) env h :
  let c := RegulatorDisable r in
  (regulator_disable r ≫= k) env h =
  emit (c, env h c) (k (rc (env h c)) env (h ++ [(c, env h c)])).
Proof. intros c. rewrite bind_run. simpl. destruct (k _ _ _); reflexivity. Qed.

Lemma run_regmap_write {B} reg val (k : Z -> M B) env h :
  let c := RegmapWrite reg val in
  (regmap_write reg val ≫= k) env h =
  emit (c, env h c) (k (rc (env h c)) env (h ++ [(c, env h c)])).
Proof. intros c. rewrite bind_run. simpl. destruct (k _ _ _); reflexivity. Qed.

Lemma run_regmap_read {B} reg (k : Z * Z -> M B) env h :
  let c := RegmapRead reg in
  (regmap_read reg ≫= k) env h =
  emit (c, env h c) (k (rc (env h c), data (env h c)) env (h ++ [(c, env h c)])).
Proof. intros c. rewrite bind_run. simpl. destruct (k _ _ _); reflexivity. Qed.

Lemma run_usleep_range {B} lo hi (k : unit -> M B) env h :
  let c := UsleepRange lo hi in
  (usleep_range lo hi ≫= k) env h =
  emit (c, env h c) (k tt env (h ++ [(c, env h c)])).
Proof. intros c. rewrite bind_run. simpl. destruct (k _ _ _); reflexivity. Qed.

Ltac run_calls :=
  repeat first
    [ rewrite run_regulator_set_load | rewrite run_regulator_set_voltage
    | rewrite run_regulator_enable | rewrite run_regulator_disable
    | rewrite run_regmap_write | rewrite run_regmap_read
    | rewrite run_usleep_range | rewrite run_ret_bind | rewrite run_ret ];
  cbv zeta.

(** ** Power sequencer *)

(** The full unwind is the power-down sequence. *)
Lemma undo_all_is_power_down : reverse (undo <$> power_up_steps) = power_down_steps.
Proof. reflexivity. Qed.

(** What a failed power-up does, step by step. *)
Lemma power_up_failure env h er k :
  power_enabled er = false ->
  fails_first env h k ->
  eusb2_repeater_powerup er env h =
  (Done (match k with
         | O => rc (env h (RegulatorSetLoad vdd18 EUSB2_1P8_HPM_LOAD))
         | _ => - EINVAL
         end, er),
   play env h (take (S k) power_up_steps ++ reverse (undo <$> take k power_up_steps))).
Proof.
  intros Hoff Hk. unfold fails_first in Hk.
  destruct er as [c ih rb pe irq s1 c1 s2 c2 tc tb done]. simpl in Hoff. subst pe.
  destruct k as [|[|[|[|[|[|k]]]]]]; cbn in Hk; simplify_eq;
    try (exfalso; destruct k; discriminate).
  all: unfold eusb2_repeater_powerup, eusb2_repeater_power; cbn [power_enabled eqb negb].
  all: repeat match goal with
         | H : _ = _ :> bool |- _ =>
           (rewrite run_regulator_set_load || rewrite run_regulator_set_voltage
            || rewrite run_regulator_enable);
           cbv zeta; rewrite H; clear H
         end.
  all: unfold unset_vdd3, put_vdd3_lpm, disable_vdd18, unset_vdd18, put_vdd18_lpm,
         err_vdd18; cbn [power_enabled negb]; run_calls.
  all: reflexivity.
Qed.

(** A power-up in which all six steps succeed makes exactly these six
    calls and ends On. *)
Lemma power_up_success env h er :
  power_enabled er = false ->
  step_failed <$> play env h power_up_steps = replicate 6 false ->
  eusb2_repeater_powerup er env h =
  (Done (0, set_power_enabled er true), play env h power_up_steps).
Proof.
  intros Hoff Hk. cbn in Hk. simplify_eq.
  unfold eusb2_repeater_powerup, eusb2_repeater_power. rewrite Hoff. cbn [eqb negb].
  repeat match goal with
         | H : _ = _ :> bool |- _ =>
           (rewrite run_regulator_set_load || rewrite run_regulator_set_voltage
            || rewrite run_regulator_enable);
           cbv zeta; rewrite H
         end.
  run_calls. cbn.
  match goal with H : negb (?x =? 0) = false |- context [?x] =>
    apply negb_false_iff, Z.eqb_eq in H; rewrite H end.
  reflexivity.
Qed.

(** Power-down from On makes the six teardown calls whatever they return,
    ends Off and returns the code of the last one. *)
Lemma power_down_run env h er :
  power_enabled er = true ->
  exists evs last,
    play env h power_down_steps = evs ++ [last] /\
    eusb2_repeater_powerdown er env h =
    (Done (rc last.2, set_power_enabled er false), play env h power_down_steps).
Proof.
  intros Hon. unfold eusb2_repeater_powerdown, eusb2_repeater_power.
  rewrite Hon. cbn [eqb negb].
  unfold disable_vdd3, unset_vdd3, put_vdd3_lpm, disable_vdd18, unset_vdd18,
    put_vdd18_lpm, err_vdd18. rewrite Hon. cbn [negb]. run_calls.
  eexists (take 5 (play env h power_down_steps)), _. split; reflexivity.
Qed.

Lemma play_take env cs :
  forall n h, play env h (take n cs) = take n (play env h cs).
Proof.
  induction cs as [|c cs IH]; intros [|n] h; try reflexivity.
  cbn [take play]. rewrite IH. reflexivity.
Qed.

Lemma first_true (l : list bool) :
  l = replicate (length l) false \/
  exists k, take (S k) l = replicate k false ++ [true].
Proof.
  induction l as [|b l IH]; [left; reflexivity |].
  destruct b.
  - right. exists O. reflexivity.
  - destruct IH as [IH|[k IH]].
    + left. simpl. rewrite <- IH. reflexivity.
    + right. exists (S k). simpl in *. rewrite IH. reflexivity.
Qed.

(** Every power-up attempt either has all six steps succeed or has a
    first failing step. *)
Lemma power_up_steps_outcome env h :
  step_failed <$> play env h power_up_steps = replicate 6 false \/
  exists k, fails_first env h k.
Proof.
  destruct (first_true (step_failed <$> play env h power_up_steps)) as [H|[k H]].
  - left. exact H.
  - right. exists k. unfold fails_first. rewrite play_take, fmap_take. exact H.
Qed.

(** C1: when a power-up that starts in state Off fails at one of its six
    rail steps, the calls made are the steps up to and including the failing
    one followed by the undo operations of the completed steps in reverse
    order; no later step is attempted and the state stays Off. *)
Theorem power_up_failure_unwinds env h er k :
  power_enabled er = false ->
  fails_first env h k ->
  (eusb2_repeater_powerup er env h).2 =
    play env h (take (S k) power_up_steps ++ reverse (undo <$> take k power_up_steps)) /\
  exists ret er',
    (eusb2_repeater_powerup er env h).1 = Done (ret, er') /\
    power_enabled er' = false.
Proof.
  intros Hoff Hk. rewrite (power_up_failure env h er k Hoff Hk). simpl.
  split; [reflexivity |]. eauto.
Qed.

Lemma power_up_failure_unwinds_witness :
  (eusb2_repeater_powerup er_off env_enable_vdd3_fails []).2 =
    play env_enable_vdd3_fails []
      [ RegulatorSetLoad vdd18 32000; RegulatorSetVoltage vdd18 1800000 1800000;
        RegulatorEnable vdd18; RegulatorSetLoad vdd3 3500;
        RegulatorSetVoltage vdd3 3075000 3300000; RegulatorEnable vdd3;
        RegulatorSetVoltage vdd3 0 3300000; RegulatorSetLoad vdd3 0;
        RegulatorDisable vdd18; RegulatorSetVoltage vdd18 0 1800000;
        RegulatorSetLoad vdd18 0 ] /\
  exists ret er',
    (eusb2_repeater_powerup er_off env_enable_vdd3_fails []).1 = Done (ret, er') /\
    power_enabled er' = false.
Proof.
  apply (power_up_failure_unwinds env_enable_vdd3_fails [] er_off 5); reflexivity.
Defined.

(** C2, as the code has it: a failed power-up returns a negative code; it
    is the failing call's own code only when the first step (the load of the
    1.8 V rail) fails, and -EINVAL when any of the steps 2 to 6 fails,
    whatever the failing call and the unwind operations returned. *)
Theorem power_up_error_code env h er k :
  power_enabled er = false ->
  fails_first env h k ->
  exists ret,
    (eusb2_repeater_powerup er env h).1 = Done (ret, er) /\
    ret < 0 /\
    ret = match k with
          | O => rc (env h (RegulatorSetLoad vdd18 EUSB2_1P8_HPM_LOAD))
          | _ => - EINVAL
          end.
Proof.
  intros Hoff Hk. rewrite (power_up_failure env h er k Hoff Hk). simpl.
  eexists. split; [reflexivity |]. split; [| reflexivity].
  destruct k as [|k]; [| reflexivity].
  unfold fails_first in Hk. cbn in Hk. simplify_eq. lia.
Qed.

Lemma power_up_error_code_witness :
  exists ret,
    (eusb2_repeater_powerup er_off env_enable_vdd3_fails []).1 = Done (ret, er_off) /\
    ret < 0 /\
    ret = - EINVAL.
Proof.
  apply (power_up_error_code env_enable_vdd3_fails [] er_off 5); reflexivity.
Defined.

(** C2, as stated, fails: the code returned does not tell which step
    failed.  A failing enable of the 3.0 V rail (code -5) and a failing
    voltage setting of the 1.8 V rail (code -12) give the same result. *)
Lemma power_up_error_code_not_step_specific :
  ~ exists identify : Z -> nat,
      forall env k ret er',
        fails_first env [] k ->
        (eusb2_repeater_powerup er_off env []).1 = Done (ret, er') ->
        identify ret = k.
Proof.
  intros [identify Hid].
  assert (H5 : identify (-22) = 5%nat)
    by (apply (Hid env_enable_vdd3_fails 5%nat (-22) er_off); reflexivity).
  assert (H1 : identify (-22) = 1%nat)
    by (apply (Hid env_set_voltage_vdd18_fails 1%nat (-22) er_off); reflexivity).
  congruence.
Qed.

(** C9: power-up while On and power-down while Off make no rail call,
    return 0 and leave the device as it was. *)
Theorem power_idempotent env h er on :
  power_enabled er = on ->
  (if on then eusb2_repeater_powerup er else eusb2_repeater_powerdown er) env h =
  (Done (0, er), []).
Proof.
  intros <-. unfold eusb2_repeater_powerup, eusb2_repeater_powerdown, eusb2_repeater_power.
  destruct (power_enabled er); reflexivity.
Qed.

Lemma power_idempotent_witness :
  eusb2_repeater_powerup er_on env_enable_vdd3_fails [] = (Done (0, er_on), []).
Proof.
  apply (power_idempotent env_enable_vdd3_fails [] er_on true). reflexivity.
Defined.

Example power_down_while_off :
  eusb2_repeater_powerdown er_off env_enable_vdd3_fails [] = (Done (0, er_off), []).
Proof. reflexivity. Qed.

(** ** Masked register write and the plain override decoder *)

Lemma u8_land z : u8 z = Z.land z 255.
Proof. unfold u8. change 255 with (Z.ones 8). rewrite Z.land_ones by lia. reflexivity. Qed.

Lemma u8_range z : 0 <= u8 z < 256.
Proof. unfold u8. apply Z.mod_pos_bound. lia. Qed.

Lemma u8_small z : 0 <= z < 256 -> u8 z = z.
Proof. intros. unfold u8. apply Z.mod_small. lia. Qed.

Lemma u8_lor a b : u8 (Z.lor a b) = Z.lor (u8 a) (u8 b).
Proof. rewrite !u8_land. apply Z.land_lor_distr_l. Qed.

Lemma u8_land_mask x mask : 0 <= mask < 256 -> u8 (Z.land x mask) = Z.land x mask.
Proof.
  intros Hm. rewrite u8_land, <- Z.land_assoc, <- (u8_land mask), (u8_small mask Hm).
  reflexivity.
Qed.

Lemma array_load_run {A B} (a : list A) i x (k : A -> M B) env h :
  0 <= i -> a !! Z.to_nat i = Some x ->
  (array_load a i ≫= k) env h = k x env h.
Proof.
  intros Hi Hx. unfold array_load.
  apply lookup_lt_Some in Hx as Hlt.
  destruct (Z.leb_spec 0 i); [| lia].
  destruct (Z.ltb_spec i (Z.of_nat (length a))); [| lia].
  simpl. rewrite Hx. apply run_ret_bind.
Qed.

Lemma array_load_oob {A B} (a : list A) i (k : A -> M B) env h :
  ~ (0 <= i < Z.of_nat (length a)) ->
  (array_load a i ≫= k) env h = (Fault (OutOfBounds i (Z.of_nat (length a))), []).
Proof.
  intros Hi. unfold array_load.
  destruct (Z.leb_spec 0 i); destruct (Z.ltb_spec i (Z.of_nat (length a))); simpl;
    try reflexivity.
  lia.
Qed.

Lemma write_reg_run env h er reg mask val :
  let rd := RegmapRead reg in
  let wr := RegmapWrite reg (u8 (Z.lor val (Z.land (u8 (data (env h rd))) mask))) in
  let w := env (h ++ [(rd, env h rd)]) wr in
  Plain.eusb2_i2c_write_reg er reg mask val env h =
  if rc (env h rd) <? 0 then (Done (rc (env h rd)), [(rd, env h rd)])
  else (Done (if rc w <? 0 then rc w else 0), [(rd, env h rd); (wr, w)]).
Proof.
  intros rd wr w. unfold Plain.eusb2_i2c_write_reg, Plain.eusb2_i2c_read_reg.
  rewrite bind_run. rewrite run_regmap_read. cbv zeta. fold rd.
  destruct (Z.ltb_spec (rc (env h rd)) 0) as [Hlt|Hge];
    rewrite run_ret; unfold emit; cbn [fst snd app].
  - destruct (Z.eqb_spec (rc (env h rd)) 0); [lia |]. reflexivity.
  - cbn [Z.eqb negb initialised]. run_calls. fold wr. fold w. unfold emit.
    destruct (rc w <? 0); reflexivity.
Qed.

Lemma pair_ind {A} (P : list A -> Prop) :
  P [] -> (forall x, P [x]) -> (forall x y l, P l -> P (x :: y :: l)) -> forall l, P l.
Proof.
  intros H0 H1 H2 l. enough (P l /\ forall x, P (x :: l)) by tauto.
  induction l as [|y l [IH1 IH2]]; [auto |]. split; [apply IH2 | intros x; apply H2, IH1].
Qed.

Lemma write_reg_done env h er reg mask val :
  exists ret, (Plain.eusb2_i2c_write_reg er reg mask val env h).1 = Done ret.
Proof.
  rewrite write_reg_run. cbv zeta. destruct (rc _ <? 0); simpl; eauto.
Qed.

Lemma plain_body_run env h er seq n val reg :
  seq !! n = Some val -> seq !! S n = Some reg ->
  Plain.update_seq_body er seq (Z.of_nat n) tt env h =
  (Done (Next tt), (Plain.eusb2_i2c_write_reg er reg 0xFF val env h).2).
Proof.
  intros Hval Hreg. unfold Plain.update_seq_body.
  rewrite (array_load_run seq _ val); [| lia | rewrite Nat2Z.id; exact Hval].
  rewrite (array_load_run seq _ reg); [| lia |].
  2: { replace (Z.to_nat (Z.of_nat n + 1)) with (S n) by lia. exact Hreg. }
  rewrite bind_run.
  destruct (write_reg_done env h er reg 255 val) as [ret Hret].
  destruct (Plain.eusb2_i2c_write_reg er reg 255 val env h) as [o evs].
  simpl in Hret. subst o. rewrite run_ret. simpl. rewrite app_nil_r. reflexivity.
Qed.

Lemma plain_update_seq_from env er seq rest :
  forall done h,
    seq = done ++ rest ->
    Nat.Even (length rest) ->
    for_ (Z.of_nat (length done)) (Z.of_nat (length seq)) 2 tt
      (Plain.update_seq_body er seq) env h =
    (Done (inl (Z.of_nat (length seq), tt)), play_write_masked env h er (pairs_of rest)).
Proof.
  induction rest as [|x|val reg rest IH] using pair_ind; intros done h Hseq Hev.
  - rewrite app_nil_r in Hseq. subst done. rewrite for_unfold by lia.
    rewrite Z.ltb_irrefl. reflexivity.
  - destruct Hev as [n Hn]. simpl in Hn. lia.
  - rewrite for_unfold by lia.
    assert (Hlen : length seq = (length done + S (S (length rest)))%nat)
      by (subst seq; rewrite length_app; reflexivity).
    destruct (Z.ltb_spec (Z.of_nat (length done)) (Z.of_nat (length seq))); [| lia].
    rewrite bind_run, (plain_body_run env h er seq (length done) val reg).
    + replace (Z.of_nat (length done) + 2) with (Z.of_nat (length (done ++ [val; reg])))
        by (rewrite length_app; simpl; lia).
      rewrite (IH (done ++ [val; reg])).
      * reflexivity.
      * subst seq. rewrite <- app_assoc. reflexivity.
      * destruct Hev as [n Hn]. simpl in Hn. exists (n - 1)%nat. lia.
    + subst seq. apply list_lookup_middle. reflexivity.
    + subst seq. change (done ++ val :: reg :: rest) with (done ++ [val] ++ reg :: rest).
      rewrite app_assoc. apply list_lookup_middle. rewrite length_app. simpl. lia.
Qed.

(** C6: the masked write first reads the register; when the read succeeds
    it then writes [value | (current & mask)], and with mask 0xFF that is
    [value | current], the requested value merged into what the register
    held.  (When the read fails the write is not made.) *)
Theorem write_masked_semantics env h er reg mask val :
  0 <= val < 256 ->
  0 <= mask < 256 ->
  let rd := RegmapRead reg in
  let current := u8 (data (env h rd)) in
  (Plain.eusb2_i2c_write_reg er reg mask val env h).2 =
    play env h (rd :: if io_failed (rd, env h rd) then []
                      else [RegmapWrite reg (Z.lor val (Z.land current mask))]) /\
  Z.lor val (Z.land current 0xFF) = Z.lor val current.
Proof.
  intros Hval Hmask rd current. rewrite write_reg_run. cbv zeta.
  fold rd. unfold io_failed. cbn [fst snd].
  rewrite u8_lor, (u8_small val Hval), (u8_land_mask _ mask Hmask). fold current.
  split.
  - destruct (rc (env h rd) <? 0); reflexivity.
  - f_equal. unfold current. rewrite <- u8_land. unfold u8. apply Z.mod_mod. lia.
Qed.

Lemma write_masked_semantics_witness :
  (Plain.eusb2_i2c_write_reg er_off 0x02 0xFF 0xAA env_reads_0x11 []).2 =
    [ (RegmapRead 0x02, mk_reply 0 0x11); (RegmapWrite 0x02 0xBB, mk_reply 0 0x11) ] /\
  Z.lor 0xAA (Z.land 0x11 0xFF) = Z.lor 0xAA 0x11.
Proof.
  apply (write_masked_semantics env_reads_0x11 [] er_off 0x02 0xFF 0xAA); lia.
Defined.

Lemma pairs_of_length bytes n :
  length bytes = (2 * n)%nat -> length (pairs_of bytes) = n.
Proof.
  revert n. induction bytes as [|x|val reg rest IH] using pair_ind; intros n Hn.
  - simpl in Hn. simpl. lia.
  - simpl in Hn. lia.
  - simpl in *. destruct n as [|n]; [lia |]. rewrite (IH n); lia.
Qed.

Lemma plain_update_seq_run env h er seq :
  Nat.Even (length seq) ->
  Plain.eusb2_repeater_update_seq er seq (Z.of_nat (length seq)) env h =
  (Done tt, play_write_masked env h er (pairs_of seq)).
Proof.
  intros Hev. unfold Plain.eusb2_repeater_update_seq.
  pose proof (plain_update_seq_from env er seq seq [] h eq_refl Hev) as Hrun.
  change (Z.of_nat (length (@nil Z))) with 0 in Hrun.
  rewrite bind_run, Hrun, run_ret, app_nil_r. reflexivity.
Qed.

Lemma probe_override_seq_even bytes :
  Nat.Even (length bytes) ->
  probe_override_seq (Some bytes) true =
  inr (take (Z.to_nat (u8 (Z.of_nat (length bytes)))) bytes, u8 (Z.of_nat (length bytes))).
Proof.
  intros [n Hn]. unfold probe_override_seq, of_property_count_elems_of_size.
  destruct bytes as [|b bytes]; [reflexivity |].
  set (l := b :: bytes) in *.
  assert (0 < Z.of_nat (length l)) by (subst l; simpl; lia).
  destruct (Z.ltb_spec 0 (Z.of_nat (length l))); [| lia].
  replace (Z.rem (Z.of_nat (length l)) 2) with 0.
  2: { rewrite Z.rem_mod_nonneg by lia. rewrite Hn.
       rewrite Nat2Z.inj_mul, Z.mul_comm, Z_mod_mult. reflexivity. }
  cbn [Z.eqb negb]. unfold of_property_read_u8_array.
  pose proof (u8_range (Z.of_nat (length l))).
  assert (u8 (Z.of_nat (length l)) <= Z.of_nat (length l))
    by (unfold u8; apply Z.mod_le; lia).
  destruct (Z.ltb_spec (Z.of_nat (length l)) (u8 (Z.of_nat (length l)))); [lia |].
  reflexivity.
Qed.

Lemma probe_override_seq_odd bytes ok :
  Nat.Odd (length bytes) -> probe_override_seq (Some bytes) ok = inl (- EINVAL).
Proof.
  intros [n Hn]. unfold probe_override_seq, of_property_count_elems_of_size.
  destruct bytes as [|b bytes]; [simpl in Hn; lia |].
  set (l := b :: bytes) in *.
  destruct (Z.ltb_spec 0 (Z.of_nat (length l))); [| subst l; simpl in *; lia].
  replace (Z.rem (Z.of_nat (length l)) 2) with 1; [reflexivity |].
  rewrite Z.rem_mod_nonneg by lia. rewrite Hn.
  replace (Z.of_nat (2 * n + 1)) with (1 + Z.of_nat n * 2) by lia.
  rewrite Z_mod_plus_full. reflexivity.
Qed.

(** Probe makes no register or regulator call. *)
Lemma probe_no_io cfg client env h : (eusb2_repeater_i2c_probe cfg client env h).2 = [].
Proof.
  unfold eusb2_repeater_i2c_probe.
  repeat match goal with
         | |- context [if ?b then _ else _] => destruct b; try reflexivity
         | |- context [match ?x with inl _ => _ | inr _ => _ end] =>
           destruct x as [?|[? ?]]; try reflexivity
         end.
Qed.




(** Scenario 1 of the specification: the array [0xAA, 0x02, 0xBB, 0x05] on
    registers that read 0x11 writes 0xAA | 0x11 to 0x02 and 0xBB | 0x11 to
    0x05. *)
Example plain_override_scenario :
  Plain.eusb2_repeater_update_seq er_off [0xAA; 0x02; 0xBB; 0x05] 4 env_reads_0x11 [] =
  (Done tt,
   [ (RegmapRead 0x02, mk_reply 0 0x11); (RegmapWrite 0x02 0xBB, mk_reply 0 0x11);
     (RegmapRead 0x05, mk_reply 0 0x11); (RegmapWrite 0x05 0xBB, mk_reply 0 0x11) ]).
Proof. reflexivity. Qed.

(** A masked write whose read fails writes nothing. *)
Example plain_override_read_failure :
  Plain.eusb2_repeater_update_seq er_off [0xAA; 0x02] 2 env_read_fails [] =
  (Done tt, [ (RegmapRead 0x02, mk_reply (-5) 0) ]).
Proof. reflexivity. Qed.

Example long_override_seq_258 :
  exists er,
    eusb2_repeater_i2c_probe cfg_plain (client_with (Some (replicate 258 0x01)) None)
      env_reads_0x11 [] = (Done (0, Some er), []) /\
    eusb2_repeater_init cfg_plain er env_reads_0x11 [] =
      (Done 0, [ (RegmapRead 0x01, mk_reply 0 0x11); (RegmapWrite 0x01 0x11, mk_reply 0 0x11) ]).
Proof. eexists. split; [vm_compute; reflexivity | reflexivity]. Qed.

(** ** The strided (host) override decoder *)

(** A loop of three attempts at one call, left at the first success. *)
Lemma retry_loop_run (c : call) (body : Z -> unit -> M (ctl unit unit)) env h :
  (forall j env h,
     body j tt env h =
     (Done (if rc (env h c) <? 0 then Next tt else Break tt), [(c, env h c)])) ->
  exists j evs,
    for_ 0 3 1 tt body env h = (Done (inl (j, tt)), evs) /\ retried 3 c evs.
Proof.
  intros Hbody.
  rewrite for_unfold by lia. change (0 <? 3) with true. cbv iota.
  rewrite bind_run, Hbody.
  destruct (rc (env h c) <? 0) eqn:E1.
  2: { eexists _, _. split; [reflexivity |].
       exists [], (c, env h c). repeat split; simpl; auto; lia. }
  rewrite for_unfold by lia. change (0 + 1 <? 3) with true. cbv iota.
  rewrite bind_run, Hbody.
  set (h1 := h ++ [(c, env h c)]).
  destruct (rc (env h1 c) <? 0) eqn:E2.
  2: { eexists _, _. split; [reflexivity |].
       exists [(c, env h c)], (c, env h1 c).
       repeat split; simpl; auto; try lia. }
  rewrite for_unfold by lia. change (0 + 1 + 1 <? 3) with true. cbv iota.
  rewrite bind_run, Hbody.
  set (h2 := h1 ++ [(c, env h1 c)]).
  assert (Hf : Forall (fun e : event => e.1 = c /\ io_failed e = true)
                 [(c, env h c); (c, env h1 c)])
    by (repeat constructor; auto).
  destruct (rc (env h2 c) <? 0) eqn:E3.
  - rewrite for_unfold by lia. change (0 + 1 + 1 + 1 <? 3) with false. cbv iota.
    eexists _, _. split; [reflexivity |].
    exists [(c, env h c); (c, env h1 c)], (c, env h2 c).
    repeat split; simpl; auto; lia.
  - eexists _, _. split; [reflexivity |].
    exists [(c, env h c); (c, env h1 c)], (c, env h2 c).
    repeat split; simpl; auto; lia.
Qed.

Lemma notifier_body_run env h seq i reg val :
  0 <= i ->
  seq !! Z.to_nat (i * 4 + 7) = Some reg ->
  seq !! Z.to_nat (i * 4 + 3) = Some val ->
  exists evs,
    Notifier.update_seq_body seq i tt env h = (Done (Next tt), evs) /\
    retried 3 (RegmapWrite reg val) evs.
Proof.
  intros Hi Hreg Hval. unfold Notifier.update_seq_body. rewrite bind_run.
  edestruct (retry_loop_run (RegmapWrite reg val)) as (j & evs & Hrun & Hretried);
    [| rewrite Hrun].
  - intros j env' h'. cbv beta.
    rewrite (array_load_run seq _ reg) by (assumption || lia).
    rewrite (array_load_run seq _ val) by (assumption || lia).
    rewrite run_regmap_write. cbv zeta.
    destruct (rc _ <? 0); reflexivity.
  - rewrite run_ret, app_nil_r. eauto.
Qed.

(** The strided loop over an array whose length is a multiple of 8 runs
    to its end. *)
Lemma notifier_loop_done env seq m :
  Z.of_nat (length seq) = 8 * m ->
  forall n j h,
    0 <= j -> j + Z.of_nat n = m ->
    exists evs,
      for_ (2 * j) (2 * m) 2 tt (Notifier.update_seq_body seq) env h =
      (Done (inl (2 * m, tt)), evs).
Proof.
  intros Hlen. induction n as [|n IH]; intros j h Hj Hjm.
  - rewrite for_unfold by lia. replace j with m by lia. rewrite Z.ltb_irrefl. eauto.
  - rewrite for_unfold by lia.
    destruct (Z.ltb_spec (2 * j) (2 * m)); [| lia].
    destruct (lookup_lt_is_Some_2 seq (Z.to_nat (2 * j * 4 + 7))) as [reg Hreg]; [lia |].
    destruct (lookup_lt_is_Some_2 seq (Z.to_nat (2 * j * 4 + 3))) as [val Hval]; [lia |].
    destruct (notifier_body_run env h seq (2 * j) reg val) as (evs & Hbody & _);
      [lia | assumption | assumption |].
    rewrite bind_run, Hbody.
    replace (2 * j + 2) with (2 * (j + 1)) by lia.
    destruct (IH (j + 1) (h ++ evs)) as [evs' Hrest]; [lia | lia |].
    rewrite Hrest. eauto.
Qed.

(** Over an array of length 8m + 4 the loop reaches the tuple index 2m and
    loads the byte at offset 8m + 7, which the array does not have. *)
Lemma notifier_loop_fault env seq m :
  Z.of_nat (length seq) = 8 * m + 4 ->
  forall n j h,
    0 <= j -> j + Z.of_nat n = m ->
    exists evs,
      for_ (2 * j) (2 * m + 1) 2 tt (Notifier.update_seq_body seq) env h =
      (Fault (OutOfBounds (8 * m + 7) (Z.of_nat (length seq))), evs).
Proof.
  intros Hlen. induction n as [|n IH]; intros j h Hj Hjm.
  - rewrite for_unfold by lia.
    destruct (Z.ltb_spec (2 * j) (2 * m + 1)); [| lia].
    rewrite bind_run. unfold Notifier.update_seq_body.
    rewrite bind_run, for_unfold by lia. change (0 <? 3) with true. cbv iota.
    rewrite bind_run, array_load_oob by lia.
    replace (2 * j * 4 + 7) with (8 * m + 7) by lia. eauto.
  - rewrite for_unfold by lia.
    destruct (Z.ltb_spec (2 * j) (2 * m + 1)); [| lia].
    destruct (lookup_lt_is_Some_2 seq (Z.to_nat (2 * j * 4 + 7))) as [reg Hreg]; [lia |].
    destruct (lookup_lt_is_Some_2 seq (Z.to_nat (2 * j * 4 + 3))) as [val Hval]; [lia |].
    destruct (notifier_body_run env h seq (2 * j) reg val) as (evs & Hbody & _);
      [lia | assumption | assumption |].
    rewrite bind_run, Hbody.
    replace (2 * j + 2) with (2 * (j + 1)) by lia.
    destruct (IH (j + 1) (h ++ evs)) as [evs' Hrest]; [lia | lia |].
    rewrite Hrest. eauto.
Qed.

Lemma probe_override_seq_length (bytes : list Z) :
  Z.of_nat (length (take (Z.to_nat (u8 (Z.of_nat (length bytes)))) bytes)) =
  u8 (Z.of_nat (length bytes)).
Proof.
  pose proof (u8_range (Z.of_nat (length bytes))).
  assert (u8 (Z.of_nat (length bytes)) <= Z.of_nat (length bytes))
    by (unfold u8; apply Z.mod_le; lia).
  rewrite length_take. lia.
Qed.

(** C10: a host override property whose length is 4 modulo 8 passes the
    parity check of probe, and the strided decoder then reaches an even tuple
    index k below cnt / 4 whose address byte, at offset 4k + 7, lies at or
    beyond the end of the array it was given: the run stops on that
    out-of-bounds load.  When the length is a multiple of 8 every offset
    4k + 3 and 4k + 7 of a processed tuple is inside the array and the
    decoder runs to its end.  (The array the decoder gets holds the first
    length mod 256 bytes of the property.) *)
Theorem host_override_seq_bounds env h er bytes4 bytes8 :
  Z.of_nat (length bytes4) mod 8 = 4 ->
  Z.of_nat (length bytes8) mod 8 = 0 ->
  (exists seq cnt k,
     probe_override_seq (Some bytes4) true = inr (seq, cnt) /\
     Z.of_nat (length seq) = cnt /\
     0 <= k < cnt / 4 /\ k mod 2 = 0 /\
     Z.of_nat (length seq) <= 4 * k + 7 /\
     exists evs,
       Notifier.eusb2_repeater_update_seq er seq cnt env h =
       (Fault (OutOfBounds (4 * k + 7) (Z.of_nat (length seq))), evs)) /\
  (exists seq cnt,
     probe_override_seq (Some bytes8) true = inr (seq, cnt) /\
     Z.of_nat (length seq) = cnt /\
     (forall k, 0 <= k < cnt / 4 -> k mod 2 = 0 ->
                4 * k + 3 < Z.of_nat (length seq) /\ 4 * k + 7 < Z.of_nat (length seq)) /\
     exists evs,
       Notifier.eusb2_repeater_update_seq er seq cnt env h = (Done tt, evs)).
Proof.
  intros H4 H8. split.
  - set (cnt := u8 (Z.of_nat (length bytes4))).
    set (seq := take (Z.to_nat cnt) bytes4).
    assert (Hlen : Z.of_nat (length seq) = cnt) by apply probe_override_seq_length.
    assert (Hcnt : 0 <= cnt < 256) by apply u8_range.
    assert (Hmod : cnt mod 8 = 4).
    { unfold cnt, u8. rewrite Z.mod_mod_divide; [exact H4 | exists 32; reflexivity]. }
    set (m := cnt / 8).
    assert (Hm : cnt = 8 * m + 4) by (unfold m; rewrite (Z.div_mod cnt 8) at 1; lia).
    assert (Hq : cnt / 4 = 2 * m + 1) by (rewrite Hm; symmetry; apply (Z.div_unique _ 4 _ 0); lia).
    exists seq, cnt, (2 * m). repeat split; try lia.
    + apply probe_override_seq_even.
      exists (Z.to_nat (Z.of_nat (length bytes4) / 2)).
      assert (Z.of_nat (length bytes4) mod 2 = 0).
      { rewrite <- (Z.mod_mod_divide _ 8 2); [rewrite H4; reflexivity | exists 4; reflexivity]. }
      pose proof (Z.div_mod (Z.of_nat (length bytes4)) 2). lia.
    + rewrite Z.mul_comm. apply Z_mod_mult.
    + unfold Notifier.eusb2_repeater_update_seq. rewrite Hq.
      rewrite (u8_small (2 * m + 1)) by lia.
      destruct (notifier_loop_fault env seq m ltac:(lia) (Z.to_nat m) 0 h) as [evs Hrun];
        [lia | lia |].
      change (2 * 0) with 0 in Hrun. rewrite bind_run, Hrun.
      replace (4 * (2 * m) + 7) with (8 * m + 7) by lia. eauto.
  - set (cnt := u8 (Z.of_nat (length bytes8))).
    set (seq := take (Z.to_nat cnt) bytes8).
    assert (Hlen : Z.of_nat (length seq) = cnt) by apply probe_override_seq_length.
    assert (Hcnt : 0 <= cnt < 256) by apply u8_range.
    assert (Hmod : cnt mod 8 = 0).
    { unfold cnt, u8. rewrite Z.mod_mod_divide; [exact H8 | exists 32; reflexivity]. }
    set (m := cnt / 8).
    assert (Hm : cnt = 8 * m) by (unfold m; rewrite (Z.div_mod cnt 8) at 1; lia).
    assert (Hq : cnt / 4 = 2 * m) by (rewrite Hm; symmetry; apply (Z.div_unique _ 4 _ 0); lia).
    exists seq, cnt. repeat split.
    + apply probe_override_seq_even.
      exists (Z.to_nat (Z.of_nat (length bytes8) / 2)).
      assert (Z.of_nat (length bytes8) mod 2 = 0).
      { rewrite <- (Z.mod_mod_divide _ 8 2); [rewrite H8; reflexivity | exists 4; reflexivity]. }
      pose proof (Z.div_mod (Z.of_nat (length bytes8)) 2). lia.
    + exact Hlen.
    + lia.
    + assert (k mod 2 = 0) by assumption.
      pose proof (Z.div_mod k 2). lia.
    + unfold Notifier.eusb2_repeater_update_seq. rewrite Hq.
      rewrite (u8_small (2 * m)) by lia.
      destruct (notifier_loop_done env seq m ltac:(lia) (Z.to_nat m) 0 h) as [evs Hrun];
        [lia | lia |].
      change (2 * 0) with 0 in Hrun. rewrite bind_run, Hrun, run_ret. eauto.
Qed.

Lemma host_override_seq_bounds_witness :
  (exists seq cnt k,
     probe_override_seq (Some [0x10; 0x11; 0x12; 0x13]) true = inr (seq, cnt) /\
     Z.of_nat (length seq) = cnt /\
     0 <= k < cnt / 4 /\ k mod 2 = 0 /\
     Z.of_nat (length seq) <= 4 * k + 7 /\
     exists evs,
       Notifier.eusb2_repeater_update_seq er_off seq cnt env_ok [] =
       (Fault (OutOfBounds (4 * k + 7) (Z.of_nat (length seq))), evs)) /\
  (exists seq cnt,
     probe_override_seq (Some [0; 0; 0; 0x03; 0; 0; 0; 0x02]) true = inr (seq, cnt) /\
     Z.of_nat (length seq) = cnt /\
     (forall k, 0 <= k < cnt / 4 -> k mod 2 = 0 ->
                4 * k + 3 < Z.of_nat (length seq) /\ 4 * k + 7 < Z.of_nat (length seq)) /\
     exists evs,
       Notifier.eusb2_repeater_update_seq er_off seq cnt env_ok [] = (Done tt, evs)).
Proof.
  apply (host_override_seq_bounds env_ok [] er_off
           [0x10; 0x11; 0x12; 0x13] [0; 0; 0; 0x03; 0; 0; 0; 0x02]); reflexivity.
Defined.

(** The smallest case: four bytes, one tuple, a load at offset 7. *)
Example host_override_seq_length_4 :
  Notifier.eusb2_repeater_update_seq er_off [0x10; 0x11; 0x12; 0x13] 4 env_ok [] =
  (Fault (OutOfBounds 7 4), []).
Proof. reflexivity. Qed.

Example host_override_seq_length_12 :
  Notifier.eusb2_repeater_update_seq er_off [0; 1; 2; 3; 4; 5; 6; 7; 8; 9; 10; 11] 12 env_ok [] =
  (Fault (OutOfBounds 15 12), [(RegmapWrite 7 3, ok)]).
Proof. reflexivity. Qed.

(** ** Report *)

Example fmt_2x_examples :
  (fmt_2x 0x5, fmt_2x 0xab, fmt_2x 0x1234, fmt_2x 0) = (" 5", "ab", "1234", " 0")%string.
Proof. reflexivity. Qed.

Lemma tune_show_loop env table rest :
  forall done h str,
    table = done ++ rest ->
    for_ (Z.of_nat (length done)) (Z.of_nat (length table)) 1 str
      (tune_show_body table) env h =
    (Done match (read_table env h rest str).1 with
          | Some str' => inl (Z.of_nat (length table), str')
          | None => inr (sprintf failed_to_read_reg)
          end,
     (read_table env h rest str).2).
Proof.
  induction rest as [|reg rest IH]; intros done h str Htable.
  - rewrite app_nil_r in Htable. subst done. rewrite for_unfold by lia.
    rewrite Z.ltb_irrefl. reflexivity.
  - rewrite for_unfold by lia.
    assert (Hlen : length table = (length done + S (length rest))%nat)
      by (subst table; rewrite length_app; reflexivity).
    destruct (Z.ltb_spec (Z.of_nat (length done)) (Z.of_nat (length table))); [| lia].
    rewrite bind_run. unfold tune_show_body at 1.
    rewrite (array_load_run table _ reg); [| lia |].
    2: { rewrite Nat2Z.id. subst table. apply list_lookup_middle. reflexivity. }
    rewrite run_regmap_read. cbv zeta. cbn [read_table]. unfold io_failed. cbn [fst snd].
    destruct (rc (env h (RegmapRead reg)) <? 0).
    + reflexivity.
    + rewrite run_ret. unfold emit. cbn [fst snd app].
      replace (Z.of_nat (length done) + 1) with (Z.of_nat (length (done ++ [reg])))
        by (rewrite length_app; simpl; lia).
      rewrite (IH (done ++ [reg])) by (subst table; rewrite <- app_assoc; reflexivity).
      destruct (read_table env _ rest _) as [r evs]. reflexivity.
Qed.

Lemma tune_show_run env h ter :
  eusb2_repeater_tune_show (Some ter) env h =
  (Done match (read_table env h (tune_map (chip ter)) (report_header (chip ter))).1 with
        | Some str => sprintf (str ++ newline)%string
        | None => sprintf failed_to_read_reg
        end,
   (read_table env h (tune_map (chip ter)) (report_header (chip ter))).2).
Proof.
  unfold eusb2_repeater_tune_show. rewrite bind_run.
  destruct (chip ter); cbn [tune_map].
  - pose proof (tune_show_loop env tune_map_ti tune_map_ti [] h
                  (report_header TI_REPEATER) eq_refl) as Hrun.
    change (Z.of_nat (length (@nil Z))) with 0 in Hrun.
    change (Z.of_nat (length tune_map_ti)) with TUNE_MAX_TI in Hrun.
    rewrite Hrun. destruct (read_table _ _ _ _) as [[str|] evs]; cbn [fst snd];
      rewrite run_ret, app_nil_r; reflexivity.
  - pose proof (tune_show_loop env tune_map_nxp tune_map_nxp [] h
                  (report_header NXP_REPEATER) eq_refl) as Hrun.
    change (Z.of_nat (length (@nil Z))) with 0 in Hrun.
    change (Z.of_nat (length tune_map_nxp)) with TUNE_MAX_NXP in Hrun.
    rewrite Hrun. destruct (read_table _ _ _ _) as [[str|] evs]; cbn [fst snd];
      rewrite run_ret, app_nil_r; reflexivity.
Qed.

(** What the report loop does: it reads a prefix of the table in table
    order; it stops at the first failed read, which is then its last event,
    and otherwise reads the whole table and builds one line per address. *)
Lemma read_table_spec env regs :
  forall h str,
    let run := read_table env h regs str in
    run.2 = play env h (RegmapRead <$> take (length run.2) regs) /\
    match run.1 with
    | None =>
      exists evs0 e, run.2 = evs0 ++ [e] /\ io_failed e = true /\
                     forallb (fun e => negb (io_failed e)) evs0 = true
    | Some str' =>
      length run.2 = length regs /\
      forallb (fun e => negb (io_failed e)) run.2 = true /\
      str' = report_rows str run.2
    end.
Proof.
  induction regs as [|reg regs IH]; intros h str; cbn [read_table].
  - cbn. auto.
  - cbv zeta. destruct (io_failed (RegmapRead reg, env h (RegmapRead reg))) eqn:E.
    + cbn [fst snd]. split; [reflexivity |].
      exists [], (RegmapRead reg, env h (RegmapRead reg)). auto.
    + specialize (IH (h ++ [(RegmapRead reg, env h (RegmapRead reg))])
                     (report_line str reg (data (env h (RegmapRead reg))))).
      cbv zeta in IH. cbn [snd] in *.
      destruct (read_table env _ regs _) as [r evs]. cbn [fst snd] in *.
      destruct IH as [Hplay Hres]. split.
      * cbn [length take fmap list_fmap play]. rewrite <- Hplay. reflexivity.
      * destruct r as [str'|].
        -- destruct Hres as (Hlen & Hok & Hstr). cbn [length forallb]. rewrite E, Hok.
           repeat split; [congruence | exact Hstr].
        -- destruct Hres as (evs0 & e & Hevs & He & Hok).
           exists ((RegmapRead reg, env h (RegmapRead reg)) :: evs0), e.
           rewrite Hevs. cbn [forallb]. rewrite E, Hok. auto.
Qed.

Lemma existsb_forallb_negb {A} (f : A -> bool) l :
  forallb (fun x => negb (f x)) l = true -> existsb f l = false.
Proof.
  induction l as [|x l IH]; simpl; [reflexivity |].
  intros [Hx Hl]%andb_prop. apply negb_true_iff in Hx. rewrite Hx, (IH Hl). reflexivity.
Qed.

(** C8: the report reads the addresses of the bound chip's table (17 for
    NXP, 12 for TI) in table order; at the first failed read it stops, that
    read being its last access, and returns only the text
    "Failed to read reg", with no table line; when no read fails it reads
    the whole table and returns one line per address. *)
Theorem report_reads_table_or_fails env h ter :
  let table := tune_map (chip ter) in
  let run := eusb2_repeater_tune_show (Some ter) env h in
  length tune_map_nxp = 17%nat /\
  length tune_map_ti = 12%nat /\
  run.2 = play env h (RegmapRead <$> take (length run.2) table) /\
  if existsb io_failed run.2 then
    run.1 = Done (sprintf failed_to_read_reg) /\
    exists evs0 e,
      run.2 = evs0 ++ [e] /\ io_failed e = true /\
      forallb (fun e => negb (io_failed e)) evs0 = true
  else
    length run.2 = length table /\
    run.1 = Done (sprintf (report_rows (report_header (chip ter)) run.2 ++ newline)%string).
Proof.
  intros table run. subst run. rewrite tune_show_run. fold table. cbn [fst snd].
  pose proof (read_table_spec env table h (report_header (chip ter))) as Hspec.
  cbv zeta in Hspec.
  destruct (read_table env h table (report_header (chip ter))) as [r evs].
  cbn [fst snd] in *. destruct Hspec as [Hplay Hres].
  split; [reflexivity |]. split; [reflexivity |]. split; [exact Hplay |].
  destruct r as [str|].
  - destruct Hres as (Hlen & Hok & Hstr).
    rewrite (existsb_forallb_negb _ _ Hok). subst str. auto.
  - destruct Hres as (evs0 & e & Hevs & He & Hok).
    replace (existsb io_failed evs) with true.
    + split; [reflexivity |]. eauto.
    + subst evs. rewrite existsb_app. simpl. rewrite He, orb_true_r. reflexivity.
Qed.

Example report_failure_text :
  sprintf failed_to_read_reg = (19, ("Failed to read reg" ++ newline)%string).
Proof. reflexivity. Qed.

(** A TI device whose third table register cannot be read: the report
    stops there and carries only the failure text. *)
Example report_ti_third_read_fails :
  eusb2_repeater_tune_show (Some (with_chip er_off TI_REPEATER)) env_uart_port1_unreadable [] =
  (Done (19, ("Failed to read reg" ++ newline)%string),
   [ (RegmapRead GPIO0_CONFIG, mk_reply 0 0x11);
     (RegmapRead GPIO1_CONFIG, mk_reply 0 0x11);
     (RegmapRead UART_PORT1, mk_reply (-6) 0) ]).
Proof. reflexivity. Qed.

Example report_nxp_reads_17 :
  length (eusb2_repeater_tune_show (Some er_off) env_reads_0x11 []).2 = 17%nat.
Proof. reflexivity. Qed.

(** ** Applying the tuning buffer *)

Lemma tune_set_body_run env h ter i row :
  0 <= i ->
  tune_buf ter !! Z.to_nat i = Some row ->
  exists evs,
    tune_set_body ter i tt env h = (Done (Next tt), evs) /\ applied ter row evs.
Proof.
  intros Hi Hrow. unfold tune_set_body, applied.
  assert (Hw : exists j w,
             for_ (R := unit) 0 3 1 tt
               (fun j _ =>
                  row ← array_load (tune_buf ter) i;
                  if skip_host_test_mode ter row then mret (Break tt)
                  else ret ← regmap_write row.1 row.2;
                       if ret <? 0 then mret (Next tt) else mret (Break tt)) env h =
             (Done (inl (j, tt)), w) /\
             (if skip_host_test_mode ter row then w = []
              else retried 3 (RegmapWrite row.1 row.2) w)).
  { destruct (skip_host_test_mode ter row) eqn:Hskip.
    - exists 0, []. split; [| reflexivity].
      rewrite for_unfold by lia. change (0 <? 3) with true. cbv iota.
      rewrite bind_run, (array_load_run _ _ row), Hskip by (assumption || lia).
      reflexivity.
    - apply retry_loop_run. intros j env' h'. cbv beta.
      rewrite (array_load_run _ _ row), Hskip by (assumption || lia).
      rewrite run_regmap_write. cbv zeta. destruct (rc _ <? 0); reflexivity. }
  destruct Hw as (j & w & Hwrun & Hwspec).
  rewrite bind_run, Hwrun. rewrite run_usleep_range. cbv zeta.
  set (d1 := env (h ++ w) (UsleepRange 1 10)).
  set (h1 := (h ++ w) ++ [(UsleepRange 1 10, d1)]).
  destruct (retry_loop_run (RegmapRead row.1)
              (fun j _ =>
                 row ← array_load (tune_buf ter) i;
                 '(ret, reg_val) ← regmap_read row.1;
                 if ret <? 0 then mret (Next tt) else mret (Break tt)) env h1)
    as (j' & r & Hrrun & Hrspec).
  { intros j0 env' h'. cbv beta.
    rewrite (array_load_run _ _ row) by (assumption || lia).
    rewrite run_regmap_read. cbv zeta. destruct (rc _ <? 0); reflexivity. }
  rewrite bind_run, Hrrun. rewrite run_usleep_range. cbv zeta.
  rewrite run_ret. unfold emit. cbn [fst snd].
  eexists. split; [reflexivity |].
  exists w, r, d1, (env (h1 ++ r) (UsleepRange 1 2)).
  split; [| split; assumption].
  reflexivity.
Qed.

Lemma tune_set_loop env ter rest :
  forall done h,
    tune_entries ter = done ++ rest ->
    0 <= tune_buf_cnt ter ->
    Z.of_nat (length (tune_entries ter)) = tune_buf_cnt ter ->
    exists blocks,
      for_ (Z.of_nat (length done)) (tune_buf_cnt ter) 1 tt (tune_set_body ter) env h =
      (Done (inl (tune_buf_cnt ter, tt)), concat blocks) /\
      Forall2 (applied ter) rest blocks.
Proof.
  induction rest as [|row rest IH]; intros done h Hent Hcnt Hlen.
  - rewrite app_nil_r in Hent. rewrite <- Hent, Hlen.
    rewrite for_unfold by lia. rewrite Z.ltb_irrefl. exists []. split; [reflexivity | constructor].
  - rewrite for_unfold by lia.
    assert (Hl : Z.of_nat (length done) < tune_buf_cnt ter).
    { rewrite <- Hlen, Hent, length_app. simpl. lia. }
    destruct (Z.ltb_spec (Z.of_nat (length done)) (tune_buf_cnt ter)); [| lia].
    destruct (tune_set_body_run env h ter (Z.of_nat (length done)) row) as (evs & Hbody & Happ).
    { lia. }
    { rewrite Nat2Z.id.
      assert (Hrow : tune_entries ter !! length done = Some row)
        by (rewrite Hent; apply list_lookup_middle; reflexivity).
      unfold tune_entries in Hrow. apply lookup_take_Some in Hrow. tauto. }
    rewrite bind_run, Hbody.
    replace (Z.of_nat (length done) + 1) with (Z.of_nat (length (done ++ [row])))
      by (rewrite length_app; simpl; lia).
    destruct (IH (done ++ [row]) (h ++ evs)) as (blocks & Hrun & Hall);
      [rewrite <- app_assoc; exact Hent | assumption | assumption |].
    rewrite Hrun. exists (evs :: blocks). split; [reflexivity |].
    constructor; assumption.
Qed.

Lemma skip_host_test_mode_spec ter row :
  is_host ter = false -> chip ter = NXP_REPEATER ->
  skip_host_test_mode ter row = true <-> row = (0x02, 0x03).
Proof.
  intros Hh Hc. unfold skip_host_test_mode. rewrite Hh, Hc. destruct row as [a v].
  cbn [negb andb fst snd]. rewrite andb_true_iff, !Z.eqb_eq.
  split; [intros [-> ->]; reflexivity | intros [= -> ->]; auto].
Qed.

Lemma retried_calls n c evs : retried n c evs -> Forall (fun e : event => e.1 = c) evs.
Proof.
  intros (failures & last & -> & Hf & Hl & _). apply Forall_app. split.
  - eapply Forall_impl; [exact Hf |]. intros e [He _]. exact He.
  - repeat constructor. exact Hl.
Qed.

Lemma applied_never_writes_skipped ter row evs :
  is_host ter = false -> chip ter = NXP_REPEATER ->
  applied ter row evs ->
  Forall (fun e : event => e.1 <> RegmapWrite 0x02 0x03) evs.
Proof.
  intros Hh Hc (w & r & d1 & d2 & -> & Hw & Hr).
  repeat (apply Forall_app; split); try (repeat constructor; discriminate).
  - destruct (skip_host_test_mode ter row) eqn:Hskip; [subst w; constructor |].
    apply retried_calls in Hw. eapply Forall_impl; [exact Hw |].
    intros e He Heq. rewrite He in Heq. injection Heq as H1 H2.
    assert (row = (0x02, 0x03)) by (destruct row; simpl in *; congruence).
    apply (skip_host_test_mode_spec ter row Hh Hc) in H. congruence.
  - apply retried_calls in Hr. eapply Forall_impl; [exact Hr |].
    intros e He Heq. rewrite He in Heq. discriminate.
Qed.

(** Applying the tuning buffer, for any chip and role. *)
Lemma tune_set_run env h ter :
  tune_buf_ok ter ->
  exists blocks,
    eusb2_repeater_tune_set ter env h = (Done tt, concat blocks) /\
    Forall2 (applied ter) (tune_entries ter) blocks.
Proof.
  intros [Hlen Hcnt].
  destruct (tune_set_loop env ter (tune_entries ter) [] h) as (blocks & Hrun & Hall).
  { reflexivity. }
  { lia. }
  { unfold tune_entries. rewrite length_take. lia. }
  change (Z.of_nat (length (@nil (Z * Z)))) with 0 in Hrun.
  exists blocks. unfold eusb2_repeater_tune_set.
  rewrite bind_run, Hrun, run_ret, app_nil_r. auto.
Qed.

(** C4: on an NXP device in client role, applying the tuning buffer goes
    through the rows in use in insertion order; the row (0x02, 0x03) gets no
    write, every other row gets its write tried up to three times until one
    succeeds, and each row, whatever its writes and read-backs returned, is
    followed by the next.  No write of 0x03 to register 0x02 is made. *)
Theorem tune_set_skips_host_test_mode env h ter :
  is_host ter = false ->
  chip ter = NXP_REPEATER ->
  tune_buf_ok ter ->
  exists blocks,
    eusb2_repeater_tune_set ter env h = (Done tt, concat blocks) /\
    Forall2 (applied ter) (tune_entries ter) blocks /\
    (forall row, skip_host_test_mode ter row = true <-> row = (0x02, 0x03)) /\
    Forall (fun e : event => e.1 <> RegmapWrite 0x02 0x03) (concat blocks).
Proof.
  intros Hh Hc [Hlen Hcnt].
  destruct (tune_set_loop env ter (tune_entries ter) [] h) as (blocks & Hrun & Hall).
  { reflexivity. }
  { lia. }
  { unfold tune_entries. rewrite length_take. lia. }
  change (Z.of_nat (length (@nil (Z * Z)))) with 0 in Hrun.
  exists blocks. unfold eusb2_repeater_tune_set.
  rewrite bind_run, Hrun, run_ret, app_nil_r.
  split; [reflexivity |]. split; [exact Hall |].
  split; [intros row; apply skip_host_test_mode_spec; assumption |].
  apply Forall_concat. clear Hrun.
  induction Hall as [|row evs rows blocks Happ _ IH]; constructor; [| exact IH].
  eapply applied_never_writes_skipped; eassumption.
Qed.

Lemma tune_set_skips_host_test_mode_witness :
  exists blocks,
    eusb2_repeater_tune_set er_tuned env_ok [] = (Done tt, concat blocks) /\
    Forall2 (applied er_tuned) (tune_entries er_tuned) blocks /\
    (forall row, skip_host_test_mode er_tuned row = true <-> row = (0x02, 0x03)) /\
    Forall (fun e : event => e.1 <> RegmapWrite 0x02 0x03) (concat blocks).
Proof.
  apply (tune_set_skips_host_test_mode env_ok [] er_tuned); try reflexivity.
  split; [reflexivity |]. unfold TUNE_BUF_COUNT. simpl. lia.
Defined.

(** Scenario 5 of the specification: with the buffer
    [(0x02,0x03), (0x10,0x01), (0x14,0x02)] only the last two rows are
    written, in that order; all three are read back. *)
Example tune_set_scenario :
  eusb2_repeater_tune_set er_tuned env_ok [] =
  (Done tt,
   [ (UsleepRange 1 10, ok); (RegmapRead 0x02, ok); (UsleepRange 1 2, ok);
     (RegmapWrite 0x10 0x01, ok); (UsleepRange 1 10, ok); (RegmapRead 0x10, ok);
     (UsleepRange 1 2, ok);
     (RegmapWrite 0x14 0x02, ok); (UsleepRange 1 10, ok); (RegmapRead 0x14, ok);
     (UsleepRange 1 2, ok) ]).
Proof. reflexivity. Qed.

(** In host role the same buffer has its first row written too. *)
Example tune_set_host_role :
  (eusb2_repeater_tune_set er_tuned_host env_ok []).2 !! 0%nat =
  Some (RegmapWrite 0x02 0x03, ok).
Proof. reflexivity. Qed.

(** ** Writing to the tuning attribute *)

Lemma tune_store_body_match env h ter reg val size i row :
  0 <= i -> (Z.to_nat i < length (tune_buf ter))%nat ->
  tune_buf ter !! Z.to_nat i = Some row -> row.1 = reg ->
  tune_store_body ter reg val size i tt env h =
  (Done (Return (write_through ter reg val size i false env h).1),
   (write_through ter reg val size i false env h).2).
Proof.
  intros Hi Hlt Hrow Haddr. unfold tune_store_body, write_through.
  rewrite (array_load_run _ _ row) by (assumption || lia).
  rewrite Haddr, Z.eqb_refl. rewrite run_regmap_write. cbv zeta.
  unfold io_failed. cbn [fst snd].
  destruct (rc (env h (RegmapWrite reg val)) <? 0); [reflexivity |].
  unfold array_store.
  destruct (Z.leb_spec 0 i); [| lia].
  destruct (Z.ltb_spec i (Z.of_nat (length (tune_buf ter)))); [| lia].
  cbn [andb]. rewrite run_ret_bind, run_usleep_range. cbv zeta.
  rewrite run_regmap_read. cbv zeta.
  destruct (rc _ <? 0); reflexivity.
Qed.

Lemma tune_store_body_skip env h ter reg val size i row :
  0 <= i ->
  tune_buf ter !! Z.to_nat i = Some row -> row.1 <> reg ->
  tune_store_body ter reg val size i tt env h = (Done (Next tt), []).
Proof.
  intros Hi Hrow Haddr. unfold tune_store_body.
  rewrite (array_load_run _ _ row) by (assumption || lia).
  destruct (Z.eqb_spec row.1 reg); [contradiction | reflexivity].
Qed.

Lemma tune_store_loop env ter reg val size rest :
  forall done h,
    tune_entries ter = done ++ rest ->
    0 <= tune_buf_cnt ter ->
    Z.of_nat (length (tune_entries ter)) = tune_buf_cnt ter ->
    for_ (Z.of_nat (length done)) (tune_buf_cnt ter) 1 tt
      (tune_store_body ter reg val size) env h =
    match list_find (fun row : Z * Z => row.1 = reg) rest with
    | None => (Done (inl (tune_buf_cnt ter, tt)), [])
    | Some (k, _) =>
      let run := write_through ter reg val size (Z.of_nat (length done + k)) false env h in
      (Done (inr run.1), run.2)
    end.
Proof.
  induction rest as [|row rest IH]; intros done h Hent Hcnt Hlen.
  - rewrite app_nil_r in Hent. rewrite <- Hent, Hlen.
    rewrite for_unfold by lia. rewrite Z.ltb_irrefl. reflexivity.
  - rewrite for_unfold by lia.
    assert (Hl : Z.of_nat (length done) < tune_buf_cnt ter).
    { rewrite <- Hlen, Hent, length_app. simpl. lia. }
    destruct (Z.ltb_spec (Z.of_nat (length done)) (tune_buf_cnt ter)); [| lia].
    assert (Hrow : tune_buf ter !! Z.to_nat (Z.of_nat (length done)) = Some row).
    { rewrite Nat2Z.id.
      assert (Hrow : tune_entries ter !! length done = Some row)
        by (rewrite Hent; apply list_lookup_middle; reflexivity).
      unfold tune_entries in Hrow. apply lookup_take_Some in Hrow. tauto. }
    cbn [list_find]. destruct (decide (row.1 = reg)) as [Heq|Hne].
    + rewrite bind_run, (tune_store_body_match env h ter reg val size _ row);
        [| lia | apply lookup_lt_Some in Hrow; exact Hrow | exact Hrow | exact Heq].
      rewrite Nat.add_0_r. cbv zeta.
      destruct (write_through ter reg val size _ false env h) as [res evs].
      cbn [fst snd]. rewrite run_ret, app_nil_r. reflexivity.
    + rewrite bind_run, (tune_store_body_skip env h ter reg val size _ row) by (assumption || lia).
      cbv beta iota. rewrite app_nil_r.
      replace (Z.of_nat (length done) + 1) with (Z.of_nat (length (done ++ [row])))
        by (rewrite length_app; simpl; lia).
      rewrite (IH (done ++ [row])); [| rewrite <- app_assoc; exact Hent | assumption | assumption].
      destruct (list_find _ rest) as [[k r]|]; cbn [fmap option_fmap option_map prod_map fst snd id].
      * replace (length (done ++ [row]) + k)%nat with (length done + S k)%nat
          by (rewrite length_app; simpl; lia).
        cbv zeta.
        destruct (write_through ter reg val size (Z.of_nat (length done + S k)) false env h)
          as [res evs].
        reflexivity.
      * reflexivity.
Qed.

Lemma tune_store_run env h ter reg val size :
  tune_buf_ok ter ->
  eusb2_repeater_tune_store (Some ter) reg val size env h =
  match list_find (fun row : Z * Z => row.1 = reg) (tune_entries ter) with
  | Some (k, _) =>
    let run := write_through ter reg val size (Z.of_nat k) false env h in
    (Done (run.1.1, Some run.1.2), run.2)
  | None =>
    if tune_buf_cnt ter <? TUNE_BUF_COUNT then
      let run := write_through ter reg val size (tune_buf_cnt ter) true env h in
      (Done (run.1.1, Some run.1.2), run.2)
    else (Done (size, Some ter), [])
  end.
Proof.
  intros [Hlen Hcnt]. unfold eusb2_repeater_tune_store.
  pose proof (tune_store_loop env ter reg val size (tune_entries ter) [] h eq_refl) as Hrun.
  change (Z.of_nat (length (@nil (Z * Z)))) with 0 in Hrun.
  rewrite bind_run, Hrun; [| lia | unfold tune_entries; rewrite length_take; lia].
  destruct (list_find _ (tune_entries ter)) as [[k r]|].
  - cbv zeta. cbn [length Nat.add].
    destruct (write_through ter reg val size _ false env h) as [[ret ter'] evs].
    cbn [fst snd]. rewrite run_ret, app_nil_r. reflexivity.
  - cbn [app]. rewrite app_nil_r.
    destruct (Z.ltb_spec (tune_buf_cnt ter) TUNE_BUF_COUNT); [| reflexivity].
    unfold write_through. rewrite run_regmap_write. cbv zeta.
    unfold io_failed. cbn [fst snd].
    destruct (rc (env h (RegmapWrite reg val)) <? 0); [reflexivity |].
    unfold array_store.
    destruct (Z.leb_spec 0 (tune_buf_cnt ter)); [| lia].
    destruct (Z.ltb_spec (tune_buf_cnt ter) (Z.of_nat (length (tune_buf ter)))); [| lia].
    cbn [andb]. rewrite run_ret_bind, run_usleep_range. cbv zeta.
    rewrite run_regmap_read. cbv zeta.
    destruct (rc _ <? 0); reflexivity.
Qed.

Lemma write_through_ok env h ter reg val size i bump :
  tune_buf_ok ter ->
  (bump = true -> tune_buf_cnt ter < TUNE_BUF_COUNT) ->
  tune_buf_ok (write_through ter reg val size i bump env h).1.2.
Proof.
  intros [Hlen Hcnt] Hbump. unfold write_through. cbv zeta.
  destruct (io_failed _); [split; assumption |].
  destruct (io_failed _); cbn [fst snd].
  - split; cbn; [rewrite length_insert |]; assumption.
  - destruct bump; split; cbn; try rewrite length_insert; try assumption.
    specialize (Hbump eq_refl). lia.
Qed.

(** Every write to the attribute keeps the buffer within its 20 rows. *)
Lemma tune_store_preserves env h ter reg val size :
  tune_buf_ok ter ->
  exists ret ter' evs,
    eusb2_repeater_tune_store (Some ter) reg val size env h = (Done (ret, Some ter'), evs) /\
    tune_buf_ok ter'.
Proof.
  intros Hok. rewrite (tune_store_run env h ter reg val size Hok).
  destruct (list_find _ _) as [[k r]|].
  - eexists _, _, _. split; [reflexivity |]. apply write_through_ok; [assumption | discriminate].
  - destruct (Z.ltb_spec (tune_buf_cnt ter) TUNE_BUF_COUNT).
    + eexists _, _, _. split; [reflexivity |]. apply write_through_ok; auto.
    + eexists _, _, _. split; [reflexivity | assumption].
Qed.

Lemma tune_store_all_bounded env writes :
  forall h ter,
    tune_buf_ok ter ->
    exists ter' evs,
      tune_store_all (Some ter) writes env h = (Done (Some ter'), evs) /\
      tune_buf_ok ter'.
Proof.
  induction writes as [|[[reg val] size] writes IH]; intros h ter Hok.
  - exists ter, []. split; [reflexivity | assumption].
  - cbn [tune_store_all]. rewrite bind_run.
    destruct (tune_store_preserves env h ter reg val size Hok) as (ret & ter1 & evs1 & Hrun & Hok1).
    rewrite Hrun.
    destruct (IH (h ++ evs1) ter1 Hok1) as (ter' & evs' & Hrest & Hok').
    rewrite Hrest. eauto.
Qed.

Lemma tune_buf_init_run env h er :
  length (tune_buf er) = 20%nat ->
  eusb2_repeater_tune_buf_init er env h =
  (Done (set_tune_buf er (replicate 20 (0, 0))), []).
Proof.
  intros Hlen. destruct er as [c ih rb pe irq s1 c1 s2 c2 tc tb done].
  cbn [tune_buf] in Hlen.
  do 20 (destruct tb as [|? tb]; [discriminate |]).
  destruct tb; [| discriminate].
  vm_compute. reflexivity.
Qed.

(** A device that probe has registered starts with an empty, well-formed
    tuning buffer. *)
Lemma probe_tune_buf_empty cfg client env h er :
  (eusb2_repeater_i2c_probe cfg client env h).1 = Done (0, Some er) ->
  tune_buf_ok er /\ tune_buf_cnt er = 0.
Proof.
  unfold eusb2_repeater_i2c_probe.
  repeat match goal with
         | |- context [if ?b then _ else _] => destruct b; try discriminate
         | |- context [match ?x with inl _ => _ | inr _ => _ end] =>
           destruct x as [?|[? ?]]; try discriminate
         end.
  all: try rewrite bind_run, tune_buf_init_run by reflexivity.
  all: intros [= <-]; split; [split |]; cbn; try reflexivity; unfold TUNE_BUF_COUNT; lia.
Qed.

(** C7, as the code has it: whatever writes are made to the attribute and
    whatever the platform answers, the buffer keeps at most 20 rows in use; a
    write to an address already in the buffer leaves the count as it was
    and, when its register write succeeds, stores the new value in that row
    (when the register write fails the device is left as it was and the
    error is returned); a write to a new address when 20 rows are in use
    changes nothing, touches no register and returns the length of the
    text, as a successful write does. *)
Theorem tune_buffer_bounded env h ter writes ter_u reg val size i row ter_f reg_f val_f size_f :
  tune_buf_ok ter ->
  tune_buf_ok ter_u ->
  list_find (fun row : Z * Z => row.1 = reg) (tune_entries ter_u) = Some (i, row) ->
  tune_buf_ok ter_f ->
  tune_buf_cnt ter_f = TUNE_BUF_COUNT ->
  list_find (fun row : Z * Z => row.1 = reg_f) (tune_entries ter_f) = None ->
  (exists ter' evs,
     tune_store_all (Some ter) writes env h = (Done (Some ter'), evs) /\
     0 <= tune_buf_cnt ter' <= 20 /\
     length (tune_entries ter') = Z.to_nat (tune_buf_cnt ter')) /\
  (exists ret ter' evs,
     eusb2_repeater_tune_store (Some ter_u) reg val size env h = (Done (ret, Some ter'), evs) /\
     tune_buf_cnt ter' = tune_buf_cnt ter_u /\
     if io_failed (RegmapWrite reg val, env h (RegmapWrite reg val))
     then ter' = ter_u /\ ret = rc (env h (RegmapWrite reg val))
     else tune_buf ter' = <[i := (reg, val)]> (tune_buf ter_u)) /\
  eusb2_repeater_tune_store (Some ter_f) reg_f val_f size_f env h = (Done (size_f, Some ter_f), []).
Proof.
  intros Hok Hoku Hfind Hokf Hfull Hnone. split; [| split].
  - destruct (tune_store_all_bounded env writes h ter Hok) as (ter' & evs & Hrun & [Hlen Hcnt]).
    exists ter', evs. split; [exact Hrun |]. split; [exact Hcnt |].
    unfold tune_entries. rewrite length_take. unfold TUNE_BUF_COUNT in *. lia.
  - rewrite (tune_store_run env h ter_u reg val size Hoku), Hfind.
    unfold write_through. cbv zeta. rewrite Nat2Z.id.
    destruct (io_failed (RegmapWrite reg val, _)).
    + eexists _, _, _. split; [reflexivity |]. repeat split.
    + destruct (io_failed (RegmapRead reg, _)); eexists _, _, _;
        (split; [reflexivity |]); split; reflexivity.
  - rewrite (tune_store_run env h ter_f reg_f val_f size_f Hokf), Hnone, Hfull.
    reflexivity.
Qed.

(** C3, as the code has it: an accepted write to the attribute makes the
    register write once; when that fails the handler returns its code and
    leaves the buffer as it was.  Otherwise it writes the row into the array,
    at the row of the address when the address is in use and at the first
    row not in use when it is new, waits, and reads the register back once.
    An update keeps the count, so the row in use holds the new value whether
    or not the read-back succeeds; a new row is counted only when the
    read-back succeeded: after a failed read-back it is in the array but not
    among the rows in use.  The read-back never undoes the register write,
    but when it fails the handler returns its code, and returns the length
    of the text only when it succeeded. *)
Theorem tune_store_write_through env h ter reg val size :
  tune_buf_ok ter ->
  is_Some (list_find (fun row : Z * Z => row.1 = reg) (tune_entries ter)) \/
    tune_buf_cnt ter < TUNE_BUF_COUNT ->
  let w := RegmapWrite reg val in
  let run := eusb2_repeater_tune_store (Some ter) reg val size env h in
  let found := list_find (fun row : Z * Z => row.1 = reg) (tune_entries ter) in
  let slot := match found with
              | Some (k, _) => k
              | None => Z.to_nat (tune_buf_cnt ter)
              end in
  exists ret ter',
    run.1 = Done (ret, Some ter') /\
    if io_failed (w, env h w) then
      run.2 = play env h [w] /\ ret = rc (env h w) /\ ter' = ter
    else
      run.2 = play env h [w; UsleepRange 1 2; RegmapRead reg] /\
      tune_buf ter' = <[slot := (reg, val)]> (tune_buf ter) /\
      tune_buf ter' !! slot = Some (reg, val) /\
      exists r,
        last run.2 = Some r /\
        ret = (if io_failed r then rc r.2 else size) /\
        match found with
        | Some _ =>
          tune_buf_cnt ter' = tune_buf_cnt ter /\
          tune_entries ter' = <[slot := (reg, val)]> (tune_entries ter) /\
          tune_entries ter' !! slot = Some (reg, val)
        | None =>
          if io_failed r
          then tune_buf_cnt ter' = tune_buf_cnt ter /\
               tune_entries ter' = tune_entries ter
          else tune_buf_cnt ter' = tune_buf_cnt ter + 1 /\
               tune_entries ter' = tune_entries ter ++ [(reg, val)]
        end.
Proof.
  intros Hok Hacc w run found slot. subst run.
  pose proof Hok as [Hlen Hcnt]. unfold TUNE_BUF_COUNT in Hlen, Hcnt.
  rewrite (tune_store_run env h ter reg val size Hok). subst slot found.
  destruct (list_find _ (tune_entries ter)) as [[k row]|] eqn:Hfind.
  - apply list_find_Some in Hfind as (Hk & _ & _). apply lookup_lt_Some in Hk.
    assert (Hkc : (k < Z.to_nat (tune_buf_cnt ter))%nat)
      by (unfold tune_entries in Hk; rewrite length_take in Hk; lia).
    unfold write_through. cbv zeta. fold w. rewrite Nat2Z.id.
    destruct (io_failed (w, env h w)).
    + eexists _, _. split; [reflexivity |]. repeat split.
    + assert (Hrow : <[k := (reg, val)]> (tune_buf ter) !! k = Some (reg, val))
        by (apply list_lookup_insert_eq; lia).
      assert (Hent : take (Z.to_nat (tune_buf_cnt ter)) (<[k := (reg, val)]> (tune_buf ter))
                     = <[k := (reg, val)]> (tune_entries ter))
        by (apply take_insert_lt; exact Hkc).
      assert (Hrow' : <[k := (reg, val)]> (tune_entries ter) !! k = Some (reg, val))
        by (apply list_lookup_insert_eq; exact Hk).
      destruct (io_failed (RegmapRead reg, _)) eqn:Er;
        (eexists _, _; split; [reflexivity |]); cbn [fst snd];
        (split; [reflexivity |]);
        (split; [reflexivity |]); (split; [exact Hrow |]);
        (eexists; split; [reflexivity |]); rewrite Er;
        (split; [reflexivity |]);
        unfold tune_entries at 1 3; cbn [tune_buf tune_buf_cnt set_tune_buf];
        rewrite Hent; auto.
  - destruct Hacc as [[x Hx]|Hlt]; [discriminate |]. unfold TUNE_BUF_COUNT in Hlt.
    change (tune_buf_cnt ter <? TUNE_BUF_COUNT) with (tune_buf_cnt ter <? 20).
    destruct (Z.ltb_spec (tune_buf_cnt ter) 20); [| lia].
    unfold write_through. cbv zeta. fold w.
    destruct (io_failed (w, env h w)).
    + eexists _, _. split; [reflexivity |]. repeat split.
    + assert (Hrow : <[Z.to_nat (tune_buf_cnt ter) := (reg, val)]> (tune_buf ter)
                       !! Z.to_nat (tune_buf_cnt ter) = Some (reg, val))
        by (apply list_lookup_insert_eq; lia).
      destruct (io_failed (RegmapRead reg, _)) eqn:Er;
        (eexists _, _; split; [reflexivity |]); cbn [fst snd];
        (split; [reflexivity |]);
        (split; [reflexivity |]); (split; [exact Hrow |]);
        (eexists; split; [reflexivity |]); rewrite Er;
        (split; [reflexivity |]);
        unfold tune_entries;
        cbn [tune_buf tune_buf_cnt set_tune_buf set_tune_buf_cnt];
        (split; [reflexivity |]).
      * apply take_insert_ge. lia.
      * replace (Z.to_nat (tune_buf_cnt ter + 1)) with (S (Z.to_nat (tune_buf_cnt ter)))
          by lia.
        rewrite (take_S_r _ _ (reg, val)) by exact Hrow.
        rewrite take_insert_ge by lia. reflexivity.
Qed.

Lemma tune_buf_ok_intro er :
  length (tune_buf er) = 20%nat -> 0 <= tune_buf_cnt er <= 20 -> tune_buf_ok er.
Proof. intros Hlen Hcnt. split; [rewrite Hlen; reflexivity | exact Hcnt]. Qed.

Lemma tune_buffer_bounded_witness :
  (exists ter' evs,
     tune_store_all (Some er_off) writes21 env_ok [] = (Done (Some ter'), evs) /\
     0 <= tune_buf_cnt ter' <= 20 /\
     length (tune_entries ter') = Z.to_nat (tune_buf_cnt ter')) /\
  (exists ret ter' evs,
     eusb2_repeater_tune_store (Some er_one) 0x04 0x02 4 env_ok [] =
       (Done (ret, Some ter'), evs) /\
     tune_buf_cnt ter' = tune_buf_cnt er_one /\
     tune_buf ter' = <[0%nat := (0x04, 0x02)]> (tune_buf er_one)) /\
  eusb2_repeater_tune_store (Some er_full) 0x33 0x01 4 env_ok [] =
    (Done (4, Some er_full), []).
Proof.
  apply (tune_buffer_bounded env_ok [] er_off writes21 er_one 0x04 0x02 4 0%nat
           (0x04, 0x01) er_full 0x33 0x01 4);
    try reflexivity; apply tune_buf_ok_intro; try reflexivity; simpl; lia.
Defined.

(** Scenario 4 of the specification: twenty writes to distinct addresses
    fill the buffer, the twenty-first leaves it as it is. *)
Example tune_store_scenario :
  exists ter' evs,
    tune_store_all (Some er_off) writes21 env_ok [] = (Done (Some ter'), evs) /\
    tune_buf_cnt ter' = 20 /\
    tune_entries ter' = (fun a => (a, 0x01)) <$> seqZ 1 20.
Proof. eexists _, _. split; [vm_compute; reflexivity |]. split; reflexivity. Qed.

(** C7, as stated, fails: a write to an address already in the buffer does
    not store the new value when the register write fails; the row keeps
    its old value 0x01 and the handler returns the error. *)
Lemma tune_store_update_needs_register_write :
  tune_entries er_one = [(0x04, 0x01)] /\
  eusb2_repeater_tune_store (Some er_one) 0x04 0x02 4 env_write_fails [] =
    (Done (-5, Some er_one), [(RegmapWrite 0x04 0x02, mk_reply (-5) 0)]).
Proof. split; reflexivity. Qed.

Lemma tune_store_write_through_witness :
  let w := RegmapWrite 0x04 0x05 in
  let run := eusb2_repeater_tune_store (Some er_off) 0x04 0x05 4 env_read_fails [] in
  let found := list_find (fun row : Z * Z => row.1 = 0x04) (tune_entries er_off) in
  let slot := match found with
              | Some (k, _) => k
              | None => Z.to_nat (tune_buf_cnt er_off)
              end in
  exists ret ter',
    run.1 = Done (ret, Some ter') /\
    if io_failed (w, env_read_fails [] w) then
      run.2 = play env_read_fails [] [w] /\ ret = rc (env_read_fails [] w) /\ ter' = er_off
    else
      run.2 = play env_read_fails [] [w; UsleepRange 1 2; RegmapRead 0x04] /\
      tune_buf ter' = <[slot := (0x04, 0x05)]> (tune_buf er_off) /\
      tune_buf ter' !! slot = Some (0x04, 0x05) /\
      exists r,
        last run.2 = Some r /\
        ret = (if io_failed r then rc r.2 else 4) /\
        match found with
        | Some _ =>
          tune_buf_cnt ter' = tune_buf_cnt er_off /\
          tune_entries ter' = <[slot := (0x04, 0x05)]> (tune_entries er_off) /\
          tune_entries ter' !! slot = Some (0x04, 0x05)
        | None =>
          if io_failed r
          then tune_buf_cnt ter' = tune_buf_cnt er_off /\
               tune_entries ter' = tune_entries er_off
          else tune_buf_cnt ter' = tune_buf_cnt er_off + 1 /\
               tune_entries ter' = tune_entries er_off ++ [(0x04, 0x05)]
        end.
Proof.
  apply (tune_store_write_through env_read_fails [] er_off 0x04 0x05 4).
  - apply tune_buf_ok_intro; [reflexivity | simpl; lia].
  - right. reflexivity.
Defined.

(** C3, as stated, fails.  The register write is made once and not tried
    again: on a platform whose first write fails and whose second would
    succeed, the handler makes one write and returns the error.  And a
    failed read-back makes the handler return the error, after a single
    read. *)
Lemma tune_store_single_attempt_and_read_back_error :
  eusb2_repeater_tune_store (Some er_off) 0x04 0x05 4 env_first_write_fails [] =
    (Done (-5, Some er_off), [(RegmapWrite 0x04 0x05, mk_reply (-5) 0)]) /\
  rc (env_first_write_fails [(RegmapWrite 0x04 0x05, mk_reply (-5) 0)]
        (RegmapWrite 0x04 0x05)) = 0 /\
  exists ter',
    eusb2_repeater_tune_store (Some er_off) 0x04 0x05 4 env_read_fails [] =
    (Done (-5, Some ter'),
     [ (RegmapWrite 0x04 0x05, ok); (UsleepRange 1 2, ok);
       (RegmapRead 0x04, mk_reply (-5) 0) ]).
Proof. split; [reflexivity |]. split; [reflexivity |]. eexists. reflexivity. Qed.

(** After a successful write to a new address whose read-back failed, the
    row is in the array but not counted. *)
Example tune_store_insert_read_back_fails :
  exists ter',
    (eusb2_repeater_tune_store (Some er_off) 0x04 0x05 4 env_read_fails []).1 =
      Done (-5, Some ter') /\
    tune_buf ter' !! 0%nat = Some (0x04, 0x05) /\
    tune_buf_cnt ter' = 0.
Proof. eexists. split; [reflexivity |]. split; reflexivity. Qed.

(** ** Init: the plain override sequence, then the tuning buffer *)




(** * Further properties *)

(** ** Power sequencer and remove *)

(** X1: a power-up that starts Off never returns a positive value; it
    returns 0 exactly when all six rail steps succeeded, which is exactly
    when it ends On, and it has then made the six steps and nothing else. *)
Theorem power_up_result env h er :
  power_enabled er = false ->
  exists ret er',
    (eusb2_repeater_powerup er env h).1 = Done (ret, er') /\
    ret <= 0 /\
    (ret = 0 <-> power_enabled er' = true) /\
    (ret = 0 <-> step_failed <$> play env h power_up_steps = replicate 6 false) /\
    (ret = 0 -> (eusb2_repeater_powerup er env h).2 = play env h power_up_steps).
Proof.
  intros Hoff. destruct (power_up_steps_outcome env h) as [Hok|[k Hk]].
  - rewrite (power_up_success env h er Hoff Hok). cbn [fst snd].
    exists 0, (set_power_enabled er true). repeat split; auto; lia.
  - rewrite (power_up_failure env h er k Hoff Hk). cbn [fst snd].
    assert (Hneg : match k with
                   | O => rc (env h (RegulatorSetLoad vdd18 EUSB2_1P8_HPM_LOAD))
                   | _ => - EINVAL
                   end < 0).
    { destruct k; [| reflexivity]. unfold fails_first in Hk. cbn in Hk. simplify_eq. lia. }
    assert (Hnot : step_failed <$> play env h power_up_steps <> replicate 6 false).
    { intros Hall. unfold fails_first in Hk.
      rewrite play_take, fmap_take, Hall in Hk.
      destruct k as [|[|[|[|[|[|k]]]]]]; cbn in Hk; try discriminate.
      destruct k; discriminate. }
    eexists _, er. split; [reflexivity |]. repeat split; try lia; try congruence.
Qed.

Lemma power_up_result_witness :
  exists ret er',
    (eusb2_repeater_powerup er_off env_enable_vdd3_fails []).1 = Done (ret, er') /\
    ret <= 0 /\
    (ret = 0 <-> power_enabled er' = true) /\
    (ret = 0 <->
     step_failed <$> play env_enable_vdd3_fails [] power_up_steps = replicate 6 false) /\
    (ret = 0 ->
     (eusb2_repeater_powerup er_off env_enable_vdd3_fails []).2 =
     play env_enable_vdd3_fails [] power_up_steps).
Proof. apply (power_up_result env_enable_vdd3_fails [] er_off). reflexivity. Defined.

(** X2: a power-down that starts On makes the six teardown calls whatever
    they return, ends Off, and returns the code of the last call (the load of
    the 1.8 V rail set to 0) only. *)
Theorem power_down_teardown env h er :
  power_enabled er = true ->
  (eusb2_repeater_powerdown er env h).2 = play env h power_down_steps /\
  exists e,
    last (eusb2_repeater_powerdown er env h).2 = Some e /\
    (eusb2_repeater_powerdown er env h).1 = Done (rc e.2, set_power_enabled er false).
Proof.
  intros Hon. destruct (power_down_run env h er Hon) as (evs & l & Hplay & Hrun).
  rewrite Hrun. cbn [fst snd]. split; [reflexivity |].
  exists l. rewrite Hplay, last_snoc. split; reflexivity.
Qed.

Lemma power_down_teardown_witness :
  (eusb2_repeater_powerdown er_on env_write_fails []).2 = play env_write_fails [] power_down_steps /\
  exists e,
    last (eusb2_repeater_powerdown er_on env_write_fails []).2 = Some e /\
    (eusb2_repeater_powerdown er_on env_write_fails []).1 =
      Done (rc e.2, set_power_enabled er_on false).
Proof. apply (power_down_teardown env_write_fails [] er_on). reflexivity. Defined.

(** A power-down whose disable calls fail still returns 0. *)
Example power_down_hides_disable_failure :
  (eusb2_repeater_powerdown er_on env_disable_fails []).1 = Done (0, er_off).
Proof. reflexivity. Qed.

Lemma power_up_while_on env h er :
  power_enabled er = true -> (eusb2_repeater_powerup er env h).2 = [].
Proof.
  intros Hon. unfold eusb2_repeater_powerup, eusb2_repeater_power. rewrite Hon. reflexivity.
Qed.

Ltac known_results :=
  repeat match goal with
         | H : negb (_ =? 0) = false |- _ => apply negb_false_iff in H
         | H : negb (_ =? 0) = true |- _ => apply negb_true_iff in H
         end.

(** The events of a power-up that starts Off, in each of its seven
    outcomes. *)
Lemma power_up_events env h er :
  power_enabled er = false ->
  (step_failed <$> play env h power_up_steps = replicate 6 false /\
   (eusb2_repeater_powerup er env h).2 = play env h power_up_steps) \/
  exists k,
    fails_first env h k /\
    (eusb2_repeater_powerup er env h).2 =
    play env h (take (S k) power_up_steps ++ reverse (undo <$> take k power_up_steps)).
Proof.
  intros Hoff. destruct (power_up_steps_outcome env h) as [Hok|[k Hk]].
  - left. rewrite (power_up_success env h er Hoff Hok). auto.
  - right. exists k. rewrite (power_up_failure env h er k Hoff Hk). auto.
Qed.

(** X3: in every power-up, an attempt to enable the 3.0 V rail comes after
    an enable of the 1.8 V rail that succeeded in the same call. *)
Theorem vdd3_enabled_after_vdd18 env h er i r :
  (eusb2_repeater_powerup er env h).2 !! i = Some (RegulatorEnable vdd3, r) ->
  exists j ra,
    (j < i)%nat /\
    (eusb2_repeater_powerup er env h).2 !! j = Some (RegulatorEnable vdd18, ra) /\
    rc ra = 0.
Proof.
  destruct (power_enabled er) eqn:Hpe.
  { rewrite (power_up_while_on env h er Hpe). discriminate. }
  destruct (power_up_events env h er Hpe) as [[Hok ->]|(k & Hk & ->)].
  - cbn in Hok. simplify_eq. known_results.
    intros Hi. cbn in Hi.
    repeat (destruct i as [|i]; cbn in Hi; simplify_eq).
    eexists 2%nat, _. split; [lia |]. split; [reflexivity |].
    apply Z.eqb_eq. assumption.
  - unfold fails_first in Hk.
    destruct k as [|[|[|[|[|[|k]]]]]]; cbn in Hk; simplify_eq;
      try (exfalso; destruct k; discriminate); known_results;
      intros Hi; cbn in Hi;
      repeat (destruct i as [|i]; cbn in Hi; simplify_eq).
    eexists 2%nat, _. split; [lia |]. split; [reflexivity |].
    apply Z.eqb_eq. assumption.
Qed.

Lemma vdd3_enabled_after_vdd18_witness :
  exists j ra,
    (j < 5)%nat /\
    (eusb2_repeater_powerup er_off env_enable_vdd3_fails []).2 !! j =
      Some (RegulatorEnable vdd18, ra) /\
    rc ra = 0.
Proof.
  apply (vdd3_enabled_after_vdd18 env_enable_vdd3_fails [] er_off 5 (mk_reply (-5) 0)).
  reflexivity.
Defined.

Ltac use_results :=
  repeat match goal with
         | H : (_ =? 0) = _ |- _ => try rewrite !H; clear H
         end.

(** Among the events counted by [f], those that also satisfy [g] are as
    many exactly when all of them satisfy [g]. *)
Lemma count_events_both (f g : event -> bool) evs :
  count_events (fun e => f e && g e) evs = count_events f evs <->
  Forall (fun e => f e = true -> g e = true) evs.
Proof.
  unfold count_events. induction evs as [|e evs IH]; [split; [constructor | reflexivity] |].
  pose proof (List.filter_length_le (fun e => f e && g e) evs) as Hle.
  assert (Hsub : (length (List.filter (fun e => f e && g e) evs)
                  <= length (List.filter f evs))%nat).
  { clear. induction evs as [|e evs IH]; [reflexivity |]. cbn [List.filter].
    destruct (f e), (g e); cbn [andb length]; lia. }
  cbn [List.filter]. rewrite Forall_cons.
  destruct (f e) eqn:Hf, (g e) eqn:Hg; cbn [andb length].
  - rewrite <- IH. split; [intros H; split; [reflexivity | lia] | intros [_ H]; lia].
  - split; [intros H; lia | intros [H _]; specialize (H eq_refl); discriminate].
  - rewrite <- IH. split; [intros H; split; [discriminate | exact H] | intros [_ H]; exact H].
  - rewrite <- IH. split; [intros H; split; [discriminate | exact H] | intros [_ H]; exact H].
Qed.

(** X4: in a power-up that starts Off, [regulator_disable] is called on a
    rail once for each of its enables that succeeded and not otherwise: for
    each rail the successful enables exceed the disable calls by one when
    the call ends On, and equal them when it ends Off.  The result of a
    disable is not checked: when the call ends Off, a rail's successful
    disables are as many as its successful enables exactly when each
    disable call on it succeeded, so a disable that fails leaves the rail
    enabled behind the failure. *)
Theorem power_up_net_enables env h er :
  power_enabled er = false ->
  exists ret er',
    (eusb2_repeater_powerup er env h).1 = Done (ret, er') /\
    (forall rl,
       count_events (enables rl) (eusb2_repeater_powerup er env h).2 =
       (count_events (disables rl) (eusb2_repeater_powerup er env h).2 +
        if power_enabled er' then 1 else 0)%nat) /\
    (power_enabled er' = true ->
     forall rl, count_events (disables rl) (eusb2_repeater_powerup er env h).2 = 0%nat) /\
    (power_enabled er' = false ->
     forall rl,
       count_events (disabled rl) (eusb2_repeater_powerup er env h).2 =
       count_events (enables rl) (eusb2_repeater_powerup er env h).2 <->
       Forall (fun e => disables rl e = true -> rc e.2 = 0)
              (eusb2_repeater_powerup er env h).2).
Proof.
  intros Hoff.
  assert (Hcount : exists ret er',
             (eusb2_repeater_powerup er env h).1 = Done (ret, er') /\
             (forall rl,
                count_events (enables rl) (eusb2_repeater_powerup er env h).2 =
                (count_events (disables rl) (eusb2_repeater_powerup er env h).2 +
                 if power_enabled er' then 1 else 0)%nat) /\
             (power_enabled er' = true ->
              forall rl,
                count_events (disables rl) (eusb2_repeater_powerup er env h).2 = 0%nat)).
  { destruct (power_up_steps_outcome env h) as [Hok|[k Hk]].
    - rewrite (power_up_success env h er Hoff Hok). cbn [fst snd].
      eexists _, _. split; [reflexivity |].
      cbn in Hok. simplify_eq. known_results.
      split; intros; unfold count_events, enables, disables; cbn; use_results;
        match goal with rl : rail |- _ => destruct rl end; reflexivity.
    - rewrite (power_up_failure env h er k Hoff Hk). cbn [fst snd].
      eexists _, _. split; [reflexivity |]. rewrite Hoff.
      split; [| discriminate]. intros rl.
      unfold fails_first in Hk.
      destruct k as [|[|[|[|[|[|k]]]]]]; cbn in Hk; simplify_eq;
        try (exfalso; destruct k; discriminate); known_results;
        unfold count_events, enables, disables; cbn; use_results;
        destruct rl; reflexivity. }
  destruct Hcount as (ret & er' & Hrun & Hnet & Hon).
  exists ret, er'. split; [exact Hrun |]. split; [exact Hnet |]. split; [exact Hon |].
  intros Hends rl. rewrite (Hnet rl), Hends, Nat.add_0_r.
  unfold disabled. rewrite count_events_both.
  apply Forall_iff. intros e. rewrite Z.eqb_eq. reflexivity.
Qed.

Lemma power_up_net_enables_witness :
  exists ret er',
    (eusb2_repeater_powerup er_off env_enable_vdd3_fails []).1 = Done (ret, er') /\
    (forall rl,
       count_events (enables rl) (eusb2_repeater_powerup er_off env_enable_vdd3_fails []).2 =
       (count_events (disables rl) (eusb2_repeater_powerup er_off env_enable_vdd3_fails []).2 +
        if power_enabled er' then 1 else 0)%nat) /\
    (power_enabled er' = true ->
     forall rl,
       count_events (disables rl)
         (eusb2_repeater_powerup er_off env_enable_vdd3_fails []).2 = 0%nat) /\
    (power_enabled er' = false ->
     forall rl,
       count_events (disabled rl) (eusb2_repeater_powerup er_off env_enable_vdd3_fails []).2 =
       count_events (enables rl) (eusb2_repeater_powerup er_off env_enable_vdd3_fails []).2 <->
       Forall (fun e => disables rl e = true -> rc e.2 = 0)
              (eusb2_repeater_powerup er_off env_enable_vdd3_fails []).2).
Proof. apply (power_up_net_enables env_enable_vdd3_fails [] er_off). reflexivity. Defined.

(** When the enable of the 3.0 V rail fails and the disable of the 1.8 V
    rail fails too, the power-up ends Off with the 1.8 V rail enabled once
    and never disabled with success. *)
Example power_up_leaves_vdd18_enabled :
  exists ret er',
    (eusb2_repeater_powerup er_off env_enable_vdd3_and_disable_fail []).1 = Done (ret, er') /\
    ret < 0 /\
    power_enabled er' = false /\
    count_events (enables vdd18)
      (eusb2_repeater_powerup er_off env_enable_vdd3_and_disable_fail []).2 = 1%nat /\
    count_events (disables vdd18)
      (eusb2_repeater_powerup er_off env_enable_vdd3_and_disable_fail []).2 = 1%nat /\
    count_events (disabled vdd18)
      (eusb2_repeater_powerup er_off env_enable_vdd3_and_disable_fail []).2 = 0%nat.
Proof. eexists _, _. split; [reflexivity |]. repeat split. Qed.

Lemma power_down_while_off_run env h er :
  power_enabled er = false -> eusb2_repeater_powerdown er env h = (Done (0, er), []).
Proof.
  intros Hoff. unfold eusb2_repeater_powerdown, eusb2_repeater_power. rewrite Hoff.
  reflexivity.
Qed.

Lemma power_up_done env h er :
  exists ret er', (eusb2_repeater_powerup er env h).1 = Done (ret, er').
Proof.
  destruct (power_enabled er) eqn:Hpe.
  - unfold eusb2_repeater_powerup, eusb2_repeater_power. rewrite Hpe. cbn. eauto.
  - destruct (power_up_steps_outcome env h) as [Hok|[k Hk]].
    + rewrite (power_up_success env h er Hpe Hok). cbn. eauto.
    + rewrite (power_up_failure env h er k Hpe Hk). cbn. eauto.
Qed.

(** X5: a power-up followed by a power-down ends Off whatever the
    platform answers and whatever the state before; the power-down part is
    either empty or the six teardown calls. *)
Theorem power_cycle_ends_off env h er :
  exists ret er' evs,
    power_cycle er env h = (Done (ret, er'), evs) /\
    power_enabled er' = false /\
    exists up down,
      evs = up ++ down /\
      up = (eusb2_repeater_powerup er env h).2 /\
      (down = [] \/ down = play env (h ++ up) power_down_steps).
Proof.
  unfold power_cycle. rewrite bind_run.
  destruct (power_up_done env h er) as (ret1 & er1 & Hup).
  destruct (eusb2_repeater_powerup er env h) as [o up]. cbn [fst snd] in *. subst o.
  destruct (power_enabled er1) eqn:Hpe.
  - destruct (power_down_run env (h ++ up) er1 Hpe) as (evs & l & _ & Hrun).
    rewrite Hrun. eexists _, _, _. split; [reflexivity |].
    split; [reflexivity |]. exists up, (play env (h ++ up) power_down_steps). auto.
  - rewrite (power_down_while_off_run env (h ++ up) er1 Hpe).
    eexists _, _, _. split; [reflexivity |]. split; [exact Hpe |].
    exists up, []. auto.
Qed.

(** X6: remove returns 0 and leaves the device Off; it makes the six
    teardown calls when the device was On and no call when it was Off or
    when there is no device. *)
Theorem remove_powers_down env h er :
  exists er',
    eusb2_repeater_i2c_remove (Some er) env h =
      (Done (0, Some er'),
       if power_enabled er then play env h power_down_steps else []) /\
    power_enabled er' = false /\
    eusb2_repeater_i2c_remove None env h = (Done (0, None), []).
Proof.
  unfold eusb2_repeater_i2c_remove. rewrite bind_run.
  destruct (power_enabled er) eqn:Hpe.
  - destruct (power_down_run env h er Hpe) as (evs & l & _ & Hrun).
    unfold eusb2_repeater_powerdown in Hrun. rewrite Hrun.
    rewrite run_ret, app_nil_r. eexists. split; [reflexivity |]. split; reflexivity.
  - pose proof (power_down_while_off_run env h er Hpe) as Hrun.
    unfold eusb2_repeater_powerdown in Hrun. rewrite Hrun.
    rewrite run_ret. eexists. split; [reflexivity |]. split; [exact Hpe | reflexivity].
Qed.

(** ** Masked register write *)

(** X7: the masked write never returns a positive value: it returns the
    code of its last access when that access failed and 0 otherwise, so it
    returns 0 exactly when it made the read and the write and both
    succeeded. *)
Theorem write_reg_result env h er reg mask val :
  exists ret e,
    (Plain.eusb2_i2c_write_reg er reg mask val env h).1 = Done ret /\
    last (Plain.eusb2_i2c_write_reg er reg mask val env h).2 = Some e /\
    ret = (if io_failed e then rc e.2 else 0) /\
    ret <= 0 /\
    (ret = 0 <-> Forall (fun e => io_failed e = false)
                   (Plain.eusb2_i2c_write_reg er reg mask val env h).2 /\
                 length (Plain.eusb2_i2c_write_reg er reg mask val env h).2 = 2%nat).
Proof.
  rewrite write_reg_run. cbv zeta. unfold io_failed.
  destruct (Z.ltb_spec (rc (env h (RegmapRead reg))) 0) as [Hr|Hr].
  - eexists _, _. split; [reflexivity |]. split; [reflexivity |]. cbn [fst snd].
    destruct (Z.ltb_spec (rc (env h (RegmapRead reg))) 0); [| lia].
    split; [reflexivity |]. split; [lia |].
    split; [lia | intros [_ Hlen]; discriminate].
  - eexists _, _. split; [reflexivity |]. split; [reflexivity |]. cbn [fst snd].
    split; [reflexivity |].
    destruct (Z.ltb_spec (rc (env (h ++ [(RegmapRead reg, env h (RegmapRead reg))])
       (RegmapWrite reg (u8 (Z.lor val (Z.land (u8 (data (env h (RegmapRead reg)))) mask)))))) 0)
      as [Hw|Hw].
    + split; [lia |]. split; [lia |]. intros [Hall _].
      apply Forall_cons in Hall as [_ Hall]. apply Forall_cons in Hall as [Hall _].
      cbn [fst snd] in Hall. apply Z.ltb_ge in Hall. lia.
    + split; [lia |]. split; [| reflexivity]. intros _. split; [| reflexivity].
      repeat constructor; cbn [fst snd]; apply Z.ltb_ge; assumption.
Qed.

Lemma land_lor_keeps a b : Z.land (Z.lor a b) a = a.
Proof.
  apply Z.bits_inj'. intros n Hn. rewrite Z.land_spec, Z.lor_spec.
  destruct (Z.testbit a n), (Z.testbit b n); reflexivity.
Qed.

(** X8: when its read succeeds, the masked write writes a byte that has
    every bit of the requested value and every bit of the register's content
    selected by the mask: it never clears a selected bit.  With mask 0 the
    byte written is the requested value itself. *)
Theorem write_reg_keeps_bits env h er reg mask val :
  0 <= val < 256 ->
  0 <= mask < 256 ->
  io_failed (RegmapRead reg, env h (RegmapRead reg)) = false ->
  let current := u8 (data (env h (RegmapRead reg))) in
  exists written r,
    (Plain.eusb2_i2c_write_reg er reg mask val env h).2 !! 1%nat =
      Some (RegmapWrite reg written, r) /\
    0 <= written < 256 /\
    Z.land written val = val /\
    Z.land written (Z.land current mask) = Z.land current mask /\
    (mask = 0 -> written = val).
Proof.
  intros Hval Hmask Hread current. rewrite write_reg_run. cbv zeta.
  unfold io_failed in Hread. cbn [fst snd] in Hread. rewrite Hread.
  eexists _, _. split; [reflexivity |]. fold current.
  split; [apply u8_range |].
  rewrite u8_lor, (u8_small val Hval), (u8_land_mask _ mask Hmask).
  split; [apply land_lor_keeps |].
  split; [rewrite Z.lor_comm; apply land_lor_keeps |].
  intros ->. rewrite Z.land_0_r, Z.lor_0_r. reflexivity.
Qed.

Lemma write_reg_keeps_bits_witness :
  exists written r,
    (Plain.eusb2_i2c_write_reg er_off 0x02 0xF0 0x0A env_reads_0x11 []).2 !! 1%nat =
      Some (RegmapWrite 0x02 written, r) /\
    0 <= written < 256 /\
    Z.land written 0x0A = 0x0A /\
    Z.land written (Z.land 0x11 0xF0) = Z.land 0x11 0xF0 /\
    (0xF0 = 0 -> written = 0x0A).
Proof.
  apply (write_reg_keeps_bits env_reads_0x11 [] er_off 0x02 0xF0 0x0A); [lia | lia |].
  reflexivity.
Defined.

(** ** Probe *)

Lemma probe_override_seq_inr prop ok seq cnt :
  probe_override_seq prop ok = inr (seq, cnt) ->
  Z.of_nat (length seq) = cnt /\ 0 <= cnt < 256 /\ cnt mod 2 = 0.
Proof.
  unfold probe_override_seq.
  destruct (Z.ltb_spec 0 (of_property_count_elems_of_size prop)) as [Hpos|_].
  2: { intros [= <- <-]. repeat split; try reflexivity; lia. }
  destruct (Z.eqb_spec (Z.rem (of_property_count_elems_of_size prop) 2) 0) as [Hrem|];
    [| discriminate].
  cbn [negb]. destruct ok; [| discriminate]. cbn [negb].
  unfold of_property_read_u8_array. destruct prop as [l|]; [| discriminate].
  set (n := of_property_count_elems_of_size (Some l)) in *.
  assert (Hn : n = Z.of_nat (length l)).
  { subst n. unfold of_property_count_elems_of_size in *. destruct l; [| reflexivity].
    unfold ENODATA in Hpos. lia. }
  pose proof (u8_range n) as Hu.
  destruct (Z.ltb_spec (Z.of_nat (length l)) (u8 n)); [discriminate |].
  cbn [Z.eqb negb]. intros [= <- <-].
  split; [rewrite length_take; lia |]. split; [exact Hu |].
  unfold u8. rewrite Z.mod_mod_divide by (exists 128; reflexivity).
  rewrite Z.rem_mod_nonneg in Hrem by lia. exact Hrem.
Qed.

Lemma probe_override_seq_inl prop ok ret :
  probe_override_seq prop ok = inl ret -> ret <> 0.
Proof.
  unfold probe_override_seq.
  destruct (0 <? _); [| discriminate].
  destruct (negb (Z.rem _ 2 =? 0)); [intros [= <-]; discriminate |].
  destruct (negb ok); [intros [= <-]; discriminate |].
  destruct (of_property_read_u8_array _ _) as [r s].
  destruct (Z.eqb_spec r 0); cbn [negb]; [discriminate |]. intros [= <-]. assumption.
Qed.

(** What probe leaves in the device it registers. *)
Lemma probe_device_wf cfg client env h er :
  (eusb2_repeater_i2c_probe cfg client env h).1 = Done (0, Some er) ->
  chip er = of_match_data client /\
  power_enabled er = false /\
  is_host er = false /\
  (Z.of_nat (length (param_override_seq er)) = param_override_seq_cnt er /\
   0 <= param_override_seq_cnt er < 256 /\ param_override_seq_cnt er mod 2 = 0) /\
  (Z.of_nat (length (param_host_override_seq er)) = param_host_override_seq_cnt er /\
   0 <= param_host_override_seq_cnt er < 256 /\
   param_host_override_seq_cnt er mod 2 = 0) /\
  (CONFIG_USB_NOTIFIER cfg = false -> param_host_override_seq_cnt er = 0) /\
  tune_buf_ok er /\
  tune_buf_cnt er = 0.
Proof.
  unfold eusb2_repeater_i2c_probe.
  repeat match goal with
         | |- ((if ?b then _ else _) _ _).1 = _ -> _ => destruct b; [discriminate |]
         end.
  destruct (probe_override_seq (of_param_override_seq client) _) as [?|[seq cnt]] eqn:Hseq;
    [discriminate |].
  apply probe_override_seq_inr in Hseq.
  destruct (CONFIG_USB_NOTIFIER cfg) eqn:Hcfg.
  - destruct (probe_override_seq (of_param_host_override_seq client) _)
      as [?|[hseq hcnt]] eqn:Hhseq; [discriminate |].
    apply probe_override_seq_inr in Hhseq.
    destruct (negb (usb_add_repeater_dev client =? 0)); [discriminate |].
    destruct (CONFIG_USB_PHY_TUNING_QCOM cfg).
    + rewrite bind_run, tune_buf_init_run by reflexivity.
      intros [= <-]. cbn. repeat split; try tauto; try discriminate; try reflexivity.
      all: try (unfold TUNE_BUF_COUNT; lia); try lia; auto; try (vm_compute; congruence).
    + intros [= <-]. cbn. repeat split; try tauto; try discriminate; try reflexivity.
      all: try (unfold TUNE_BUF_COUNT; lia); try lia; auto; try (vm_compute; congruence).
  - destruct (negb (usb_add_repeater_dev client =? 0)); [discriminate |].
    destruct (CONFIG_USB_PHY_TUNING_QCOM cfg).
    + rewrite bind_run, tune_buf_init_run by reflexivity.
      intros [= <-]. cbn. repeat split; try tauto; try reflexivity.
      all: try (unfold TUNE_BUF_COUNT; lia); try lia; auto; try (vm_compute; congruence).
    + intros [= <-]. cbn. repeat split; try tauto; try reflexivity.
      all: try (unfold TUNE_BUF_COUNT; lia); try lia; auto; try (vm_compute; congruence).
Qed.

(** X9: a device that probe registers is Off and in client role, has the
    chip type of the matched node, holds each override array with a count
    that equals the array's length, is even and fits a byte (the host one
    empty without CONFIG_USB_NOTIFIER), and has an empty tuning buffer of 20
    rows. *)
Theorem probe_establishes cfg client env h er :
  (eusb2_repeater_i2c_probe cfg client env h).1 = Done (0, Some er) ->
  chip er = of_match_data client /\
  power_enabled er = false /\
  is_host er = false /\
  (Z.of_nat (length (param_override_seq er)) = param_override_seq_cnt er /\
   0 <= param_override_seq_cnt er < 256 /\ param_override_seq_cnt er mod 2 = 0) /\
  (Z.of_nat (length (param_host_override_seq er)) = param_host_override_seq_cnt er /\
   0 <= param_host_override_seq_cnt er < 256 /\
   param_host_override_seq_cnt er mod 2 = 0) /\
  (CONFIG_USB_NOTIFIER cfg = false -> param_host_override_seq_cnt er = 0) /\
  tune_buf_ok er /\
  tune_buf_cnt er = 0.
Proof. apply probe_device_wf. Qed.

Lemma probe_establishes_witness :
  exists er,
    (eusb2_repeater_i2c_probe cfg_notifier
       (client_with (Some [0xAA; 0x02]) (Some [0; 0; 0; 0x03; 0; 0; 0; 0x02])) env_ok []).1 =
      Done (0, Some er) /\
    chip er = NXP_REPEATER /\
    power_enabled er = false /\
    is_host er = false /\
    (Z.of_nat (length (param_override_seq er)) = param_override_seq_cnt er /\
     0 <= param_override_seq_cnt er < 256 /\ param_override_seq_cnt er mod 2 = 0) /\
    (Z.of_nat (length (param_host_override_seq er)) = param_host_override_seq_cnt er /\
     0 <= param_host_override_seq_cnt er < 256 /\
     param_host_override_seq_cnt er mod 2 = 0) /\
    (CONFIG_USB_NOTIFIER cfg_notifier = false -> param_host_override_seq_cnt er = 0) /\
    tune_buf_ok er /\
    tune_buf_cnt er = 0.
Proof.
  eexists. split; [vm_compute; reflexivity |].
  eapply (probe_establishes cfg_notifier
            (client_with (Some [0xAA; 0x02]) (Some [0; 0; 0; 0x03; 0; 0; 0; 0x02])) env_ok []).
  vm_compute. reflexivity.
Defined.

Lemma probe_outcome cfg client env h :
  exists ret o,
    eusb2_repeater_i2c_probe cfg client env h = (Done (ret, o), []) /\
    (ret = 0 <-> is_Some o).
Proof.
  unfold eusb2_repeater_i2c_probe. unfold IS_ERR.
  repeat match goal with
         | |- exists _ _, (if ?b then _ else _) _ _ = _ /\ _ =>
           let E := fresh "E" in
           destruct b eqn:E;
           [ eexists _, None; split; [reflexivity |];
             split; [| intros [? [=]]];
             first [ discriminate
                   | apply Z.ltb_lt in E; lia
                   | apply andb_prop in E as [_ E]; apply Z.ltb_lt in E; lia
                   | apply negb_true_iff, Z.eqb_neq in E; congruence ]
           | ]
         end.
  destruct (probe_override_seq (of_param_override_seq client) _) as [r|[seq cnt]] eqn:Hseq.
  { apply probe_override_seq_inl in Hseq. eexists _, None. split; [reflexivity |].
    split; [congruence | intros [? [=]]]. }
  destruct (if CONFIG_USB_NOTIFIER cfg then _ else _) as [r|[hseq hcnt]] eqn:Hhseq.
  { destruct (CONFIG_USB_NOTIFIER cfg); [| discriminate].
    apply probe_override_seq_inl in Hhseq. eexists _, None. split; [reflexivity |].
    split; [congruence | intros [? [=]]]. }
  destruct (negb (usb_add_repeater_dev client =? 0)) eqn:Hadd.
  { eexists _, None. split; [reflexivity |].
    apply negb_true_iff, Z.eqb_neq in Hadd. split; [congruence | intros [? [=]]]. }
  destruct (CONFIG_USB_PHY_TUNING_QCOM cfg).
  - rewrite bind_run, tune_buf_init_run by reflexivity.
    eexists 0, (Some _). split; [reflexivity |]. split; eauto.
  - eexists 0, (Some _). split; [reflexivity |]. split; eauto.
Qed.

(** X11: a host override property of odd length makes probe fail when the
    driver is built with CONFIG_USB_NOTIFIER; without it the property is not
    read at all: probe does what it does for the same node without the
    property. *)
Theorem probe_host_override_seq cfg client env h l :
  of_param_host_override_seq client = Some l ->
  Nat.Odd (length l) ->
  if CONFIG_USB_NOTIFIER cfg then
    exists ret, ret <> 0 /\
      eusb2_repeater_i2c_probe cfg client env h = (Done (ret, None), [])
  else
    eusb2_repeater_i2c_probe cfg client env h =
    eusb2_repeater_i2c_probe cfg (without_host_override_seq client) env h.
Proof.
  intros Hprop Hodd. destruct (CONFIG_USB_NOTIFIER cfg) eqn:Hcfg.
  - destruct (probe_outcome cfg client env h) as (ret & o & Hrun & Hiff).
    rewrite Hrun. destruct o as [er|].
    + exfalso. revert Hrun. unfold eusb2_repeater_i2c_probe.
      rewrite Hcfg, Hprop, (probe_override_seq_odd l _ Hodd).
      repeat match goal with
             | |- (if ?b then _ else _) _ _ = _ -> _ => destruct b; [discriminate |]
             end.
      destruct (probe_override_seq _ _) as [?|[? ?]]; discriminate.
    + exists ret. split; [| reflexivity]. intros ->. destruct Hiff as [Hiff _].
      destruct (Hiff eq_refl) as [? [=]].
  - unfold eusb2_repeater_i2c_probe. rewrite Hcfg. reflexivity.
Qed.

Lemma probe_host_override_seq_witness :
  exists ret, ret <> 0 /\
    eusb2_repeater_i2c_probe cfg_notifier (client_with None (Some [0x01; 0x02; 0x03]))
      env_ok [] = (Done (ret, None), []).
Proof.
  apply (probe_host_override_seq cfg_notifier (client_with None (Some [0x01; 0x02; 0x03]))
           env_ok [] [0x01; 0x02; 0x03]); [reflexivity |].
  exists 1%nat. reflexivity.
Defined.

Example probe_host_override_seq_unused :
  exists er,
    eusb2_repeater_i2c_probe cfg_plain (client_with None (Some [0x01; 0x02; 0x03]))
      env_ok [] = (Done (0, Some er), []) /\
    param_host_override_seq er = [].
Proof. eexists. split; [vm_compute; reflexivity | reflexivity]. Qed.

(** X12: without CONFIG_USB_NOTIFIER, init of a device registered by probe
    never reads outside the override array and returns 0 on every platform:
    it applies one masked write per (value, address) pair of the stored
    array, half its count in number. *)
Theorem plain_probe_then_init cfg client env h er env' h' :
  CONFIG_USB_NOTIFIER cfg = false ->
  (eusb2_repeater_i2c_probe cfg client env h).1 = Done (0, Some er) ->
  eusb2_repeater_init cfg er env' h' =
  (Done 0, play_write_masked env' h' er (pairs_of (param_override_seq er))) /\
  length (pairs_of (param_override_seq er)) =
    Z.to_nat (param_override_seq_cnt er / 2).
Proof.
  intros Hcfg Hprobe.
  destruct (probe_device_wf cfg client env h er Hprobe)
    as (_ & _ & _ & (Hlen & Hcnt & Hev) & _ & _ & _ & Htune).
  assert (Heven : length (param_override_seq er) =
                  (2 * Z.to_nat (param_override_seq_cnt er / 2))%nat).
  { pose proof (Z.div_mod (param_override_seq_cnt er) 2). lia. }
  split; [| apply pairs_of_length, Heven].
  unfold eusb2_repeater_init. rewrite Hcfg, Htune. cbn [andb negb Z.eqb].
  rewrite andb_false_r. cbn [andb].
  destruct (Z.eqb_spec (param_override_seq_cnt er) 0) as [H0|H0]; cbn [negb].
  - destruct (param_override_seq er); [reflexivity | simpl in Hlen; lia].
  - rewrite bind_run. unfold eusb2_repeater_update_seq. rewrite Hcfg, <- Hlen.
    rewrite (plain_update_seq_run env' h' er (param_override_seq er)).
    + cbv beta iota. rewrite run_ret_bind, run_ret, !app_nil_r. reflexivity.
    + eexists. exact Heven.
Qed.

Lemma plain_probe_then_init_witness :
  exists er,
    (eusb2_repeater_i2c_probe cfg_plain
       (client_with (Some [0xAA; 0x02; 0xBB; 0x05]) None) env_ok []).1 = Done (0, Some er) /\
    eusb2_repeater_init cfg_plain er env_read_fails [] =
      (Done 0, play_write_masked env_read_fails [] er (pairs_of (param_override_seq er))) /\
    length (pairs_of (param_override_seq er)) =
      Z.to_nat (param_override_seq_cnt er / 2).
Proof.
  eexists. split; [vm_compute; reflexivity |].
  eapply (plain_probe_then_init cfg_plain
            (client_with (Some [0xAA; 0x02; 0xBB; 0x05]) None) env_ok []);
    [reflexivity | vm_compute; reflexivity].
Defined.

(** X10: probe makes no call to the regulators or the regmap, and it
    returns 0 exactly when it registers a device. *)
Theorem probe_registers_iff_zero cfg client env h :
  exists ret o,
    eusb2_repeater_i2c_probe cfg client env h = (Done (ret, o), []) /\
    (ret = 0 <-> is_Some o).
Proof. apply probe_outcome. Qed.

(** ** The strided decoder in general *)

Lemma notifier_body_tuple env h seq t :
  0 <= t -> 8 * t + 7 < Z.of_nat (length seq) ->
  exists evs,
    Notifier.update_seq_body seq (2 * t) tt env h = (Done (Next tt), evs) /\
    tuple_written seq t evs.
Proof.
  intros Ht Hlen.
  destruct (lookup_lt_is_Some_2 seq (Z.to_nat (8 * t + 7))) as [reg Hreg]; [lia |].
  destruct (lookup_lt_is_Some_2 seq (Z.to_nat (8 * t + 3))) as [val Hval]; [lia |].
  destruct (notifier_body_run env h seq (2 * t) reg val) as (evs & Hbody & Hretried).
  - lia.
  - replace (2 * t * 4 + 7) with (8 * t + 7) by lia. exact Hreg.
  - replace (2 * t * 4 + 3) with (8 * t + 3) by lia. exact Hval.
  - exists evs. split; [exact Hbody |]. exists reg, val. auto.
Qed.

(** The strided loop over [m] whole tuples, with or without one more odd
    tuple index [2m] whose address byte is missing. *)
Lemma notifier_loop_tuples env seq m (odd : bool) :
  8 * m <= Z.of_nat (length seq) ->
  (odd = true -> Z.of_nat (length seq) <= 8 * m + 7) ->
  forall n j h,
    0 <= j -> j + Z.of_nat n = m ->
    exists blocks,
      for_ (2 * j) (2 * m + if odd then 1 else 0) 2 tt (Notifier.update_seq_body seq) env h =
      (if odd then Fault (OutOfBounds (8 * m + 7) (Z.of_nat (length seq)))
       else Done (inl (2 * m, tt)),
       concat blocks) /\
      Forall2 (tuple_written seq) (seqZ j (Z.of_nat n)) blocks.
Proof.
  intros Hlen Hodd. induction n as [|n IH]; intros j h Hj Hjm.
  - exists []. split; [| constructor]. rewrite for_unfold by lia.
    replace j with m by lia. destruct odd.
    + destruct (Z.ltb_spec (2 * m) (2 * m + 1)); [| lia].
      rewrite bind_run. unfold Notifier.update_seq_body.
      rewrite bind_run, for_unfold by lia. change (0 <? 3) with true. cbv iota.
      rewrite bind_run, array_load_oob by (specialize (Hodd eq_refl); lia).
      replace (2 * m * 4 + 7) with (8 * m + 7) by lia. reflexivity.
    + rewrite Z.add_0_r, Z.ltb_irrefl. reflexivity.
  - rewrite for_unfold by lia.
    destruct (Z.ltb_spec (2 * j) (2 * m + if odd then 1 else 0));
      [| destruct odd; lia].
    destruct (notifier_body_tuple env h seq j) as (evs & Hbody & Htuple); [lia | lia |].
    rewrite bind_run, Hbody.
    replace (2 * j + 2) with (2 * (j + 1)) by lia.
    destruct (IH (j + 1) (h ++ evs)) as (blocks & Hrest & Hall); [lia | lia |].
    rewrite Hrest. exists (evs :: blocks). split.
    + destruct odd; reflexivity.
    + rewrite seqZ_cons by lia. constructor; [exact Htuple |].
      replace (Z.succ j) with (j + 1) by lia.
      replace (Z.pred (Z.of_nat (S n))) with (Z.of_nat n) by lia. exact Hall.
Qed.

Lemma strided_decoder_run env h er seq :
  Z.of_nat (length seq) < 256 ->
  let cnt := Z.of_nat (length seq) in
  exists blocks,
    Notifier.eusb2_repeater_update_seq er seq cnt env h =
    (if (cnt / 4) mod 2 =? 0 then Done tt
     else Fault (OutOfBounds (4 * (cnt / 4) + 3) cnt),
     concat blocks) /\
    Forall2 (tuple_written seq) (seqZ 0 (cnt / 8)) blocks /\
    ((cnt / 4) mod 2 = 1 -> cnt <= 4 * (cnt / 4) + 3).
Proof.
  intros Hlt cnt. unfold Notifier.eusb2_repeater_update_seq.
  assert (Hcnt : 0 <= cnt) by (subst cnt; lia).
  set (m := cnt / 8).
  assert (Hm : 0 <= m) by (apply Z.div_pos; lia).
  pose proof (Z.div_mod cnt 8 ltac:(lia)) as H8.
  pose proof (Z.mod_pos_bound cnt 8 ltac:(lia)) as Hr8. fold m in H8.
  rewrite (u8_small (cnt / 4)).
  2: { split; [apply Z.div_pos; lia | apply Z.div_lt_upper_bound; lia]. }
  destruct (Z.ltb_spec (cnt mod 8) 4) as [Hlow|Hhigh].
  - assert (Hq : cnt / 4 = 2 * m)
      by (symmetry; apply (Z.div_unique _ 4 _ (cnt mod 8)); lia).
    rewrite Hq. replace ((2 * m) mod 2) with 0
      by (symmetry; rewrite Z.mul_comm; apply Z_mod_mult).
    cbn [Z.eqb].
    destruct (notifier_loop_tuples env seq m false ltac:(fold cnt; lia) ltac:(discriminate)
                (Z.to_nat m) 0 h) as (blocks & Hrun & Hall); [lia | lia |].
    cbv iota in Hrun. rewrite Z.add_0_r in Hrun. change (2 * 0) with 0 in Hrun.
    rewrite bind_run, Hrun, run_ret, app_nil_r.
    exists blocks. split; [reflexivity |]. split; [| discriminate].
    rewrite Z2Nat.id in Hall by lia. exact Hall.
  - assert (Hq : cnt / 4 = 2 * m + 1)
      by (symmetry; apply (Z.div_unique _ 4 _ (cnt mod 8 - 4)); lia).
    rewrite Hq. replace ((2 * m + 1) mod 2) with 1
      by (symmetry; rewrite Z.add_comm, Z.mul_comm; apply Z_mod_plus_full).
    cbn [Z.eqb].
    destruct (notifier_loop_tuples env seq m true ltac:(fold cnt; lia) ltac:(fold cnt; lia)
                (Z.to_nat m) 0 h) as (blocks & Hrun & Hall); [lia | lia |].
    cbv iota in Hrun. change (2 * 0) with 0 in Hrun.
    rewrite bind_run, Hrun.
    exists blocks. split; [| split; [| lia]].
    + fold cnt. replace (4 * (2 * m + 1) + 3) with (8 * m + 7) by lia. reflexivity.
    + rewrite Z2Nat.id in Hall by lia. exact Hall.
Qed.

(** X13: given an array of fewer than 256 bytes and its length, the
    strided decoder writes the tuples 0 to len/8 - 1 in order, tuple t being
    the byte at offset 8t + 3 written to the register at offset 8t + 7 with
    up to three attempts; it then ends normally when len/4 is even (up to
    three trailing bytes are not used) and stops on the load at offset
    4(len/4) + 3, beyond the array, when len/4 is odd. *)
Theorem strided_decoder_needs_even_tuple_count env h er seq :
  Z.of_nat (length seq) < 256 ->
  let cnt := Z.of_nat (length seq) in
  exists blocks,
    Notifier.eusb2_repeater_update_seq er seq cnt env h =
    (if (cnt / 4) mod 2 =? 0 then Done tt
     else Fault (OutOfBounds (4 * (cnt / 4) + 3) cnt),
     concat blocks) /\
    Forall2 (tuple_written seq) (seqZ 0 (cnt / 8)) blocks /\
    ((cnt / 4) mod 2 = 1 -> cnt <= 4 * (cnt / 4) + 3).
Proof. apply strided_decoder_run. Qed.

Lemma strided_decoder_needs_even_tuple_count_witness :
  exists blocks,
    Notifier.eusb2_repeater_update_seq er_off [0x10; 0x11; 0x12; 0x13; 0x14; 0x15] 6
      env_ok [] =
    (Fault (OutOfBounds 7 6), concat blocks) /\
    Forall2 (tuple_written [0x10; 0x11; 0x12; 0x13; 0x14; 0x15]) [] blocks /\
    (1 = 1 -> 6 <= 7).
Proof.
  apply (strided_decoder_needs_even_tuple_count env_ok [] er_off
           [0x10; 0x11; 0x12; 0x13; 0x14; 0x15]).
  reflexivity.
Defined.

(** Ten bytes: one tuple is written and the last two bytes are not used. *)
Example strided_decoder_length_10 :
  Notifier.eusb2_repeater_update_seq er_off [0; 1; 2; 0x33; 4; 5; 6; 0x77; 8; 9] 10 env_ok [] =
  (Done tt, [(RegmapWrite 0x77 0x33, ok)]).
Proof. reflexivity. Qed.

Lemma tuples_are_writes seq ts blocks :
  Forall2 (tuple_written seq) ts blocks ->
  Forall (fun e => is_regmap_write e = true) (concat blocks).
Proof.
  intros Hall. apply Forall_concat.
  induction Hall as [|t b ts blocks (reg & val & _ & _ & Hr) _ IH]; constructor;
    [| exact IH].
  apply retried_calls in Hr. eapply Forall_impl; [exact Hr |].
  intros e He. unfold is_regmap_write. rewrite He. reflexivity.
Qed.

Lemma strided_decoder_only_writes env h er seq :
  Z.of_nat (length seq) < 256 ->
  Forall (fun e => is_regmap_write e = true)
    (Notifier.eusb2_repeater_update_seq er seq (Z.of_nat (length seq)) env h).2.
Proof.
  intros Hlt. destruct (strided_decoder_run env h er seq Hlt) as (blocks & Hrun & Hall & _).
  rewrite Hrun. cbn [snd]. eapply tuples_are_writes, Hall.
Qed.

(** X14: with CONFIG_USB_NOTIFIER, init of a device registered by probe
    makes register writes only, in host and in client role alike: neither
    override array is applied through the read-then-write masked access. *)
Theorem notifier_init_never_reads cfg client env h er b env' h' :
  CONFIG_USB_NOTIFIER cfg = true ->
  (eusb2_repeater_i2c_probe cfg client env h).1 = Done (0, Some er) ->
  Forall (fun e => is_regmap_write e = true)
    (eusb2_repeater_init cfg (with_is_host er b) env' h').2.
Proof.
  intros Hcfg Hprobe.
  destruct (probe_device_wf cfg client env h er Hprobe)
    as (_ & _ & _ & (Hlen & Hcnt & _) & (Hhlen & Hhcnt & _) & _ & _ & Htune).
  unfold eusb2_repeater_init, eusb2_repeater_update_seq.
  cbn [param_host_override_seq_cnt param_host_override_seq param_override_seq
       param_override_seq_cnt tune_buf_cnt is_host er_tune_init_done with_is_host].
  rewrite Hcfg, Htune. cbn [andb negb Z.eqb]. rewrite andb_false_r. cbn [andb].
  rewrite bind_run.
  assert (Hsel : forall seq, Z.of_nat (length seq) < 256 ->
            Forall (fun e => is_regmap_write e = true)
              (let (o, e1) :=
                 Notifier.eusb2_repeater_update_seq (with_is_host er b) seq
                   (Z.of_nat (length seq)) env' h' in
               match o with
               | Done a =>
                 let '(b0, e2) := (mret tt ≫= (fun _ : unit => (mret 0 : M Z))) env' (h' ++ e1) in
                 (b0, e1 ++ e2)
               | Fault f => (Fault f, e1)
               end).2).
  { intros seq Hlt.
    pose proof (strided_decoder_only_writes env' h' (with_is_host er b) seq Hlt) as Hw.
    destruct (Notifier.eusb2_repeater_update_seq _ seq _ env' h') as [[[]|f] e1];
      cbn [snd] in *; [| exact Hw].
    rewrite run_ret_bind, run_ret, app_nil_r. exact Hw. }
  destruct (negb (param_host_override_seq_cnt er =? 0) && b).
  - rewrite <- Hhlen. apply Hsel. lia.
  - destruct (negb (param_override_seq_cnt er =? 0)).
    + rewrite <- Hlen. apply Hsel. lia.
    + rewrite run_ret. cbv beta iota. rewrite run_ret_bind, run_ret. constructor.
Qed.

Lemma notifier_init_never_reads_witness :
  exists er,
    (eusb2_repeater_i2c_probe cfg_notifier
       (client_with (Some [0xAA; 0x02]) (Some [0; 0; 0; 0x03; 0; 0; 0; 0x02])) env_ok []).1 =
      Done (0, Some er) /\
    Forall (fun e => is_regmap_write e = true)
      (eusb2_repeater_init cfg_notifier (with_is_host er true) env_reads_0x11 []).2.
Proof.
  eexists. split; [vm_compute; reflexivity |].
  eapply (notifier_init_never_reads cfg_notifier
            (client_with (Some [0xAA; 0x02]) (Some [0; 0; 0; 0x03; 0; 0; 0; 0x02])) env_ok []);
    [reflexivity | vm_compute; reflexivity].
Defined.

(** ** Applying the tuning buffer in general *)

(** X15: in host role, or on a TI chip, applying the tuning buffer skips
    no row: every row in use, the row (0x02, 0x03) included, has its write
    tried up to three times, in insertion order. *)
Theorem tune_set_writes_every_row env h ter :
  tune_buf_ok ter ->
  is_host ter = true \/ chip ter = TI_REPEATER ->
  exists blocks,
    eusb2_repeater_tune_set ter env h = (Done tt, concat blocks) /\
    Forall2 (fun row evs =>
               exists w rest,
                 evs = w ++ rest /\ retried 3 (RegmapWrite row.1 row.2) w)
            (tune_entries ter) blocks.
Proof.
  intros Hok Hrole. destruct (tune_set_run env h ter Hok) as (blocks & Hrun & Hall).
  exists blocks. split; [exact Hrun |].
  eapply Forall2_impl; [exact Hall |].
  intros row evs (w & r & d1 & d2 & -> & Hw & _).
  assert (Hskip : skip_host_test_mode ter row = false).
  { unfold skip_host_test_mode. destruct Hrole as [-> | ->]; [reflexivity |].
    rewrite andb_false_r. reflexivity. }
  rewrite Hskip in Hw. eauto.
Qed.

Lemma tune_set_writes_every_row_witness :
  exists blocks,
    eusb2_repeater_tune_set er_tuned_host env_ok [] = (Done tt, concat blocks) /\
    Forall2 (fun row evs =>
               exists w rest,
                 evs = w ++ rest /\ retried 3 (RegmapWrite row.1 row.2) w)
            (tune_entries er_tuned_host) blocks.
Proof.
  apply (tune_set_writes_every_row env_ok [] er_tuned_host).
  - apply tune_buf_ok_intro; [reflexivity | simpl; lia].
  - left. reflexivity.
Defined.






(** ** Contents of the tuning buffer across writes *)

(** The rows in use after a write to the attribute. *)
Lemma tune_store_entries env h ter reg val size :
  tune_buf_ok ter ->
  exists ret ter',
    eusb2_repeater_tune_store (Some ter) reg val size env h =
      (Done (ret, Some ter'), (eusb2_repeater_tune_store (Some ter) reg val size env h).2) /\
    tune_buf_ok ter' /\
    (read_back_succeeded (eusb2_repeater_tune_store (Some ter) reg val size env h).2 = true ->
     ret = size) /\
    tune_entries ter' =
    match list_find (fun row : Z * Z => row.1 = reg) (tune_entries ter) with
    | Some (k, _) =>
      if write_succeeded (eusb2_repeater_tune_store (Some ter) reg val size env h).2
      then <[k := (reg, val)]> (tune_entries ter)
      else tune_entries ter
    | None =>
      if read_back_succeeded (eusb2_repeater_tune_store (Some ter) reg val size env h).2
      then tune_entries ter ++ [(reg, val)]
      else tune_entries ter
    end.
Proof.
  intros Hok. pose proof Hok as [Hlen Hcnt]. unfold TUNE_BUF_COUNT in *.
  rewrite (tune_store_run env h ter reg val size Hok).
  destruct (list_find _ (tune_entries ter)) as [[k row]|] eqn:Hfind.
  - apply list_find_Some in Hfind as (Hk & _ & _). apply lookup_lt_Some in Hk.
    assert (Hkc : (k < Z.to_nat (tune_buf_cnt ter))%nat)
      by (unfold tune_entries in Hk; rewrite length_take in Hk; lia).
    pose proof (write_through_ok env h ter reg val size (Z.of_nat k) false Hok
                  ltac:(discriminate)) as Hok'.
    revert Hok'. unfold write_through. cbv zeta. rewrite Nat2Z.id.
    destruct (io_failed (RegmapWrite reg val, _)) eqn:Ew.
    + intros Hok'. eexists _, _. split; [reflexivity |]. cbn [fst snd].
      split; [exact Hok' |]. cbn [read_back_succeeded write_succeeded]. rewrite Ew.
      split; [discriminate | reflexivity].
    + destruct (io_failed (RegmapRead reg, _)) eqn:Er; intros Hok';
        (eexists _, _; split; [reflexivity |]); cbn [fst snd];
        (split; [exact Hok' |]); cbn [read_back_succeeded write_succeeded];
        rewrite Ew, ?Er; cbn [negb andb];
        (split; [first [discriminate | reflexivity] |]);
        unfold tune_entries; cbn [tune_buf tune_buf_cnt set_tune_buf];
        apply take_insert_lt; exact Hkc.
  - destruct (Z.ltb_spec (tune_buf_cnt ter) 20) as [Hroom|Hfull].
    + change (tune_buf_cnt ter <? TUNE_BUF_COUNT) with (tune_buf_cnt ter <? 20).
      destruct (Z.ltb_spec (tune_buf_cnt ter) 20); [| lia].
      pose proof (write_through_ok env h ter reg val size (tune_buf_cnt ter) true Hok
                    ltac:(intros _; unfold TUNE_BUF_COUNT; lia)) as Hok'.
      revert Hok'. unfold write_through. cbv zeta.
      destruct (io_failed (RegmapWrite reg val, _)) eqn:Ew.
      * intros Hok'. eexists _, _. split; [reflexivity |]. cbn [fst snd].
        split; [exact Hok' |]. cbn [read_back_succeeded].
        split; [discriminate | reflexivity].
      * destruct (io_failed (RegmapRead reg, _)) eqn:Er; intros Hok';
          (eexists _, _; split; [reflexivity |]); cbn [fst snd];
          (split; [exact Hok' |]); cbn [read_back_succeeded];
          rewrite Ew, Er; cbn [negb andb];
          (split; [first [discriminate | reflexivity] |]);
          unfold tune_entries;
          cbn [tune_buf tune_buf_cnt set_tune_buf set_tune_buf_cnt].
        -- apply take_insert_ge. lia.
        -- replace (Z.to_nat (tune_buf_cnt ter + 1)) with (S (Z.to_nat (tune_buf_cnt ter)))
             by lia.
           rewrite (take_S_r _ _ (reg, val)) by (apply list_lookup_insert_eq; lia).
           rewrite take_insert_ge by lia. reflexivity.
    + change (tune_buf_cnt ter <? TUNE_BUF_COUNT) with (tune_buf_cnt ter <? 20).
      destruct (Z.ltb_spec (tune_buf_cnt ter) 20); [lia |].
      eexists _, _. split; [reflexivity |]. cbn [snd read_back_succeeded].
      split; [exact Hok |]. split; [discriminate | reflexivity].
Qed.

Lemma tune_store_addresses env h ter reg val size :
  tune_buf_ok ter ->
  exists ret ter' evs,
    eusb2_repeater_tune_store (Some ter) reg val size env h = (Done (ret, Some ter'), evs) /\
    tune_buf_ok ter' /\
    (tune_addresses ter' = tune_addresses ter \/
     tune_addresses ter' = tune_addresses ter ++ [reg] /\ reg ∉ tune_addresses ter).
Proof.
  intros Hok.
  destruct (tune_store_entries env h ter reg val size Hok) as (ret & ter' & Hrun & Hok' & _ & Hent).
  exists ret, ter', (eusb2_repeater_tune_store (Some ter) reg val size env h).2.
  split; [exact Hrun |]. split; [exact Hok' |].
  unfold tune_addresses. rewrite Hent.
  destruct (list_find _ (tune_entries ter)) as [[k row]|] eqn:Hfind.
  - left. destruct (write_succeeded _); [| reflexivity].
    apply list_find_Some in Hfind as (Hk & Hrow & _).
    rewrite list_fmap_insert. apply list_insert_id.
    rewrite list_lookup_fmap, Hk. cbn. rewrite Hrow. reflexivity.
  - destruct (read_back_succeeded _); [| left; reflexivity].
    right. rewrite fmap_app. split; [reflexivity |].
    apply list_find_None in Hfind. intros Hin.
    apply list_elem_of_fmap in Hin as (row & Hrow & Hin).
    rewrite Forall_forall in Hfind. apply (Hfind row Hin). congruence.
Qed.

(** X17: any sequence of writes to the tuning attribute keeps the addresses
    of the rows in use pairwise distinct, and only ever extends the list of
    addresses at its end: no row is removed or reordered. *)
Theorem tune_addresses_unique_in_order env h ter writes :
  tune_buf_ok ter ->
  NoDup (tune_addresses ter) ->
  exists ter' evs,
    tune_store_all (Some ter) writes env h = (Done (Some ter'), evs) /\
    NoDup (tune_addresses ter') /\
    tune_addresses ter `prefix_of` tune_addresses ter'.
Proof.
  revert h ter. induction writes as [|[[reg val] size] writes IH]; intros h ter Hok Hnd.
  - exists ter, []. split; [reflexivity |]. split; [exact Hnd | reflexivity].
  - cbn [tune_store_all]. rewrite bind_run.
    destruct (tune_store_addresses env h ter reg val size Hok)
      as (ret & ter1 & evs1 & Hrun & Hok1 & Haddr).
    rewrite Hrun.
    assert (Hnd1 : NoDup (tune_addresses ter1)).
    { destruct Haddr as [-> | [-> Hnew]]; [exact Hnd |].
      apply NoDup_app. split; [exact Hnd |]. split; [| apply NoDup_singleton].
      intros x Hx Hx'. apply list_elem_of_singleton in Hx'. subst x. contradiction. }
    assert (Hpre : tune_addresses ter `prefix_of` tune_addresses ter1).
    { destruct Haddr as [-> | [-> _]]; [reflexivity | apply prefix_app_r; reflexivity]. }
    destruct (IH (h ++ evs1) ter1 Hok1 Hnd1) as (ter' & evs' & Hrest & Hnd' & Hpre').
    rewrite Hrest. exists ter', (evs1 ++ evs'). split; [reflexivity |].
    split; [exact Hnd' |]. etrans; eassumption.
Qed.

Lemma tune_addresses_unique_in_order_witness :
  exists ter' evs,
    tune_store_all (Some er_one) writes21 env_ok [] = (Done (Some ter'), evs) /\
    NoDup (tune_addresses ter') /\
    tune_addresses er_one `prefix_of` tune_addresses ter'.
Proof.
  apply (tune_addresses_unique_in_order env_ok [] er_one writes21).
  - apply tune_buf_ok_intro; [reflexivity | simpl; lia].
  - vm_compute. apply NoDup_singleton.
Defined.

(** X18: a write to the tuning attribute whose read-back succeeds returns
    the byte count it was given and leaves the row (reg, val) in the buffer;
    an address that was not in the buffer is in it afterwards exactly when
    the read-back succeeded. *)
Theorem tune_store_then_lookup env h ter reg val size :
  tune_buf_ok ter ->
  exists ret ter',
    (eusb2_repeater_tune_store (Some ter) reg val size env h).1 = Done (ret, Some ter') /\
    (read_back_succeeded (eusb2_repeater_tune_store (Some ter) reg val size env h).2 = true ->
     ret = size /\ (reg, val) ∈ tune_entries ter') /\
    (reg ∉ tune_addresses ter ->
     (reg ∈ tune_addresses ter' <->
      read_back_succeeded (eusb2_repeater_tune_store (Some ter) reg val size env h).2 = true)).
Proof.
  intros Hok.
  destruct (tune_store_entries env h ter reg val size Hok)
    as (ret & ter' & Hrun & Hok' & Hret & Hent).
  exists ret, ter'. split; [rewrite Hrun; reflexivity |]. split.
  - intros Hrb. split; [apply Hret, Hrb |]. rewrite Hent.
    destruct (list_find _ (tune_entries ter)) as [[k row]|] eqn:Hfind.
    + assert (Hw : write_succeeded
                     (eusb2_repeater_tune_store (Some ter) reg val size env h).2 = true).
      { revert Hrb. destruct ((eusb2_repeater_tune_store _ _ _ _ _ _).2) as [|w [|d [|r [|]]]];
          cbn; try discriminate. intros [? _]%andb_prop. assumption. }
      rewrite Hw. apply list_find_Some in Hfind as (Hk & _ & _).
      apply list_elem_of_lookup. exists k. apply list_lookup_insert_eq.
      apply lookup_lt_Some in Hk. exact Hk.
    + rewrite Hrb. apply elem_of_app. right. apply list_elem_of_singleton. reflexivity.
  - intros Hnew. unfold tune_addresses in *. rewrite Hent.
    destruct (list_find _ (tune_entries ter)) as [[k row]|] eqn:Hfind.
    + exfalso. apply list_find_Some in Hfind as (Hk & Hrow & _). apply Hnew.
      apply list_elem_of_fmap. exists row. split; [congruence |].
      apply list_elem_of_lookup. eauto.
    + destruct (read_back_succeeded _).
      * split; [reflexivity |]. intros _. rewrite fmap_app. apply elem_of_app.
        right. apply list_elem_of_singleton. reflexivity.
      * split; [contradiction | discriminate].
Qed.

Lemma tune_store_then_lookup_witness :
  exists ret ter',
    (eusb2_repeater_tune_store (Some er_one) 0x06 0x01 4 env_ok []).1
      = Done (ret, Some ter') /\
    (read_back_succeeded (eusb2_repeater_tune_store (Some er_one) 0x06 0x01 4 env_ok []).2
       = true ->
     ret = 4 /\ (0x06, 0x01) ∈ tune_entries ter') /\
    (0x06 ∉ tune_addresses er_one ->
     (0x06 ∈ tune_addresses ter' <->
      read_back_succeeded (eusb2_repeater_tune_store (Some er_one) 0x06 0x01 4 env_ok []).2
        = true)).
Proof.
  apply (tune_store_then_lookup env_ok [] er_one 0x06 0x01 4).
  apply tune_buf_ok_intro; [reflexivity | simpl; lia].
Defined.

(** X19: a write to the tuning attribute for one address leaves the rows
    of every other address as they were, whatever the platform answers. *)
Theorem tune_store_other_addresses env h ter reg val size a v :
  tune_buf_ok ter ->
  a <> reg ->
  exists ret ter',
    (eusb2_repeater_tune_store (Some ter) reg val size env h).1 = Done (ret, Some ter') /\
    ((a, v) ∈ tune_entries ter' <-> (a, v) ∈ tune_entries ter).
Proof.
  intros Hok Hne.
  destruct (tune_store_entries env h ter reg val size Hok)
    as (ret & ter' & Hrun & _ & _ & Hent).
  exists ret, ter'. split; [rewrite Hrun; reflexivity |]. rewrite Hent.
  destruct (list_find _ (tune_entries ter)) as [[k row]|] eqn:Hfind.
  - destruct (write_succeeded _); [| reflexivity].
    apply list_find_Some in Hfind as (Hk & Hrow & _).
    rewrite !list_elem_of_lookup. split; intros [i Hi]; exists i.
    + destruct (decide (k = i)) as [->|Hki].
      * rewrite list_lookup_insert_eq in Hi by (apply lookup_lt_Some in Hk; exact Hk).
        congruence.
      * rewrite list_lookup_insert_ne in Hi by exact Hki. exact Hi.
    + destruct (decide (k = i)) as [->|Hki].
      * rewrite Hk in Hi. injection Hi as ->. cbn in Hrow. congruence.
      * rewrite list_lookup_insert_ne by exact Hki. exact Hi.
  - destruct (read_back_succeeded _); [| reflexivity].
    rewrite elem_of_app, list_elem_of_singleton. split; [| auto].
    intros [H|H]; [exact H | congruence].
Qed.

Lemma tune_store_other_addresses_witness :
  exists ret ter',
    (eusb2_repeater_tune_store (Some er_one) 0x06 0x01 4 env_write_fails []).1
      = Done (ret, Some ter') /\
    ((0x04, 0x01) ∈ tune_entries ter' <-> (0x04, 0x01) ∈ tune_entries er_one).
Proof.
  apply (tune_store_other_addresses env_write_fails [] er_one 0x06 0x01 4 0x04 0x01).
  - apply tune_buf_ok_intro; [reflexivity | simpl; lia].
  - lia.
Defined.

(** ** Init as a composition *)

(** X20: without the USB notifier, init of a device whose override
    sequence has even length plays the override pairs first and applies the
    tuning buffer after them, and returns 0 whatever the register accesses
    return. *)
Theorem init_plays_overrides_then_tuning cfg er env h :
  CONFIG_USB_NOTIFIER cfg = false ->
  CONFIG_USB_PHY_TUNING_QCOM cfg = true ->
  er_tune_init_done er = true ->
  tune_buf_ok er ->
  Nat.Even (length (param_override_seq er)) ->
  param_override_seq_cnt er = Z.of_nat (length (param_override_seq er)) ->
  exists blocks,
    eusb2_repeater_init cfg er env h =
    (Done 0,
     play_write_masked env h er (pairs_of (param_override_seq er)) ++ concat blocks) /\
    Forall2 (applied er) (tune_entries er) blocks.
Proof.
  intros Hnot Htun Hdone Hok Hev Hcnt. unfold eusb2_repeater_init.
  rewrite Hnot, Htun, Hdone. cbn [andb]. rewrite andb_true_r.
  set (first := play_write_masked env h er (pairs_of (param_override_seq er))).
  assert (Hfirst :
            (if negb (param_override_seq_cnt er =? 0)
             then eusb2_repeater_update_seq cfg er (param_override_seq er)
                    (param_override_seq_cnt er)
             else mret tt) env h = (Done tt, first)).
  { destruct (Z.eqb_spec (param_override_seq_cnt er) 0) as [H0|H0]; cbn [negb].
    - subst first. destruct (param_override_seq er); [reflexivity | simpl in *; lia].
    - unfold eusb2_repeater_update_seq. rewrite Hnot, Hcnt.
      apply plain_update_seq_run, Hev. }
  rewrite bind_run, Hfirst. cbv beta iota.
  destruct (Z.eqb_spec (tune_buf_cnt er) 0) as [H0|H0]; cbn [negb].
  - rewrite run_ret_bind, run_ret. exists []. split; [reflexivity |].
    unfold tune_entries. rewrite H0. constructor.
  - destruct (tune_set_run env (h ++ first) er Hok) as (blocks & Hrun & Hall).
    rewrite bind_run, Hrun, run_ret, app_nil_r. exists blocks. auto.
Qed.

Lemma init_plays_overrides_then_tuning_witness :
  exists blocks,
    eusb2_repeater_init cfg_plain
      (with_param_override_seq er_tuned [0xAA; 0x02; 0xBB; 0x05] 4) env_ok [] =
    (Done 0,
     play_write_masked env_ok []
       (with_param_override_seq er_tuned [0xAA; 0x02; 0xBB; 0x05] 4)
       (pairs_of [0xAA; 0x02; 0xBB; 0x05]) ++ concat blocks) /\
    Forall2 (applied (with_param_override_seq er_tuned [0xAA; 0x02; 0xBB; 0x05] 4))
            (tune_entries (with_param_override_seq er_tuned [0xAA; 0x02; 0xBB; 0x05] 4))
            blocks.
Proof.
  apply (init_plays_overrides_then_tuning cfg_plain
           (with_param_override_seq er_tuned [0xAA; 0x02; 0xBB; 0x05] 4) env_ok []).
  - reflexivity.
  - reflexivity.
  - reflexivity.
  - apply tune_buf_ok_intro; [reflexivity | simpl; lia].
  - exists 2%nat. reflexivity.
  - reflexivity.
Defined.

(** ** Size of the report *)

Lemma string_length_app (s1 s2 : string) :
  String.length (s1 ++ s2) = (String.length s1 + String.length s2)%nat.
Proof. induction s1 as [|c s1 IH]; simpl; [reflexivity | rewrite IH; reflexivity]. Qed.

Lemma hex_nibbles_length n x : (String.length (hex_nibbles n x) <= n)%nat.
Proof.
  induction n as [|n IH]; [reflexivity |]. cbn [hex_nibbles].
  destruct (_ && _); simpl; lia.
Qed.

Lemma fmt_2x_length x : (String.length (fmt_2x x) <= 8)%nat.
Proof.
  unfold fmt_2x, pad_left. rewrite string_length_app.
  pose proof (hex_nibbles_length 8 (x mod 2 ^ 32)) as Hh.
  set (s := hex_nibbles 8 (x mod 2 ^ 32)) in *.
  assert (Hpad : forall k, String.length (string_of_list_ascii (repeat " "%char k)) = k).
  { induction k as [|k IHk]; simpl; [reflexivity | rewrite IHk; reflexivity]. }
  rewrite Hpad. lia.
Qed.

Lemma report_line_length str reg reg_val :
  (String.length (report_line str reg reg_val) <= String.length str + 26)%nat.
Proof.
  unfold report_line. rewrite !string_length_app.
  pose proof (fmt_2x_length reg). pose proof (fmt_2x_length reg_val).
  change (String.length "  0x") with 4%nat. change (String.length "   0x") with 5%nat.
  change (String.length newline) with 1%nat. lia.
Qed.

Lemma read_table_length env regs :
  forall h str,
    match (read_table env h regs str).1 with
    | Some s => (String.length s <= String.length str + 26 * length regs)%nat
    | None => True
    end.
Proof.
  induction regs as [|reg regs IH]; intros h str; cbn [read_table].
  - cbn. lia.
  - cbv zeta. destruct (io_failed _); [exact I |].
    specialize (IH (h ++ [(RegmapRead reg, env h (RegmapRead reg))])
                  (report_line str reg (data (env h (RegmapRead reg))))).
    cbn [snd] in *. destruct (read_table env _ regs _) as [[s|] evs]; cbn [fst] in *;
      [| exact I].
    pose proof (report_line_length str reg (data (env h (RegmapRead reg)))).
    cbn [length]. lia.
Qed.

(** X21: the report always returns the length of the text it produces,
    which is positive, and the table text together with its terminator fits
    the array of [TUNE_SHOW_STR_SIZE] bytes it is built in, whatever values
    the registers hold. *)
Theorem report_fits_buffer env h ter :
  exists ret text,
    (eusb2_repeater_tune_show (Some ter) env h).1 = Done (ret, text) /\
    ret = Z.of_nat (String.length text) /\
    0 < ret < TUNE_SHOW_STR_SIZE.
Proof.
  rewrite tune_show_run. cbn [fst].
  pose proof (read_table_length env (tune_map (chip ter)) h (report_header (chip ter))) as Hlen.
  destruct (read_table env h _ _) as [[s|] evs]; cbn [fst] in *.
  - eexists _, _. split; [reflexivity |]. cbn [sprintf fst snd].
    split; [reflexivity |]. rewrite string_length_app.
    change (String.length newline) with 1%nat.
    assert (String.length (report_header (chip ter)) + 26 * length (tune_map (chip ter))
            <= 464)%nat by (destruct (chip ter); vm_compute; lia).
    unfold TUNE_SHOW_STR_SIZE, TUNE_BUF_SIZE, TUNE_BUF_COUNT. lia.
  - eexists _, _. split; [reflexivity |]. split; [reflexivity |]. vm_compute. auto.
Qed.
